(** * gateway: the allow-list of pinned GitHub Actions references

    A shallow embedding of [gateway/gateway.py] and the properties of its
    four pure operations: [generate_workflow], [update_refs],
    [create_pattern] and [remove_expired_refs].

    Modelling choices.
    - A Python [dict] keeps its keys in insertion order and the operations
      below iterate over it, so a dict is an association list whose keys
      are pairwise distinct ([PyDict.wf]).  Assigning to a key that is
      present replaces the value where it stands, assigning to a new key
      appends, and deleting a key keeps the order of the others.
    - A [datetime.date] is its proleptic Gregorian ordinal (what
      [date.toordinal] returns); dates compare as their ordinals and
      adding [timedelta(weeks=w)] adds [7 * w] days.  [date.today()] is
      the parameter [today] of every operation that reads the clock.
    - A [str] is a [string]; the only character the code inspects is the
      separator [@], which is a single byte in every encoding of interest.
    - An exception is a value of [exn] returned in [Err]; a caller that
      does not handle it returns it unchanged, which is how it propagates.
    - The store is a tree of values: [refs = action_refs[name]] followed by
      a mutation of [refs] is written as the update of [action_refs] at
      [name] that the alias causes. *)

From Stdlib Require Import ZArith List String Ascii Bool Lia.
Import ListNotations.

Local Open Scope string_scope.
Local Open Scope list_scope.
Local Open Scope Z_scope.

(** ** Exceptions and fallible results *)

Inductive exn : Type :=
| KeyError (key : string)
| ValueError.

Inductive res (A : Type) : Type :=
| Ok (a : A)
| Err (e : exn).

Arguments Ok {A} a.
Arguments Err {A} e.

Definition bind {A B : Type} (m : res A) (k : A -> res B) : res B :=
  match m with
  | Ok a => k a
  | Err e => Err e
  end.

Notation "x <- m ;; k" := (bind m (fun x => k))
  (at level 61, m at next level, right associativity).
Notation "' pat <- m ;; k" := (bind m (fun x => match x with pat => k end))
  (at level 61, pat pattern, m at next level, right associativity).

(** ** Dates *)

Module Date.

Definition date := Z.

Definition is_leap (year : Z) : bool :=
  (year mod 4 =? 0) && (negb (year mod 100 =? 0) || (year mod 400 =? 0)).

Definition days_before_year (year : Z) : Z :=
  let y := year - 1 in
  y * 365 + y / 4 - y / 100 + y / 400.

Definition days_in_month (year month : Z) : Z :=
  if month =? 2 then (if is_leap year then 29 else 28)
  else if (month =? 4) || (month =? 6) || (month =? 9) || (month =? 11)
       then 30 else 31.

Fixpoint days_before_month_aux (year : Z) (months : nat) : Z :=
  match months with
  | O => 0
  | S m => days_before_month_aux year m + days_in_month year (Z.of_nat (S m))
  end.

Definition days_before_month (year month : Z) : Z :=
  days_before_month_aux year (Z.to_nat (month - 1)).

(** [date(year, month, day)] as an ordinal, 0001-01-01 being day 1. *)
Definition ymd (year month day : Z) : date :=
  days_before_year year + days_before_month year month + day.

(** [d + timedelta(weeks=weeks)] *)
Definition add_weeks (d : date) (weeks : Z) : date := d + 7 * weeks.

End Date.

Abbreviation date := Date.date.

(** ** Insertion-ordered dictionaries with string keys *)

Module PyDict.

Section Ops.
Context {V : Type}.

Definition t := list (string * V).

Definition keys (d : t) : list string := map fst d.

(** [k in d] *)
Fixpoint contains (d : t) (k : string) : bool :=
  match d with
  | [] => false
  | (k', _) :: d' => if String.eqb k k' then true else contains d' k
  end.

(** [d.get(k)] *)
Fixpoint get (d : t) (k : string) : option V :=
  match d with
  | [] => None
  | (k', v) :: d' => if String.eqb k k' then Some v else get d' k
  end.

(** [d[k]] *)
Definition getitem (d : t) (k : string) : res V :=
  match get d k with
  | Some v => Ok v
  | None => Err (KeyError k)
  end.

(** [d[k] = v] *)
Fixpoint setitem (d : t) (k : string) (v : V) : t :=
  match d with
  | [] => [(k, v)]
  | (k', v') :: d' =>
      if String.eqb k k' then (k', v) :: d' else (k', v') :: setitem d' k v
  end.

(** [del d[k]] *)
Fixpoint delitem (d : t) (k : string) : res t :=
  match d with
  | [] => Err (KeyError k)
  | (k', v') :: d' =>
      if String.eqb k k' then Ok d'
      else d'' <- delitem d' k ;; Ok ((k', v') :: d'')
  end.

(** [not d] *)
Definition is_empty (d : t) : bool :=
  match d with
  | [] => true
  | _ :: _ => false
  end.

(** The keys of a dictionary are pairwise distinct. *)
Definition wf (d : t) : Prop := NoDup (keys d).

End Ops.

Arguments t : clear implicits.

End PyDict.

(** ** Strings *)

(** [s.split(sep)] for a separator of one character. *)
Fixpoint split (s : string) (sep : ascii) : list string :=
  match s with
  | EmptyString => [EmptyString]
  | String c s' =>
      if Ascii.eqb c sep then EmptyString :: split s' sep
      else match split s' sep with
           | piece :: pieces => String c piece :: pieces
           | [] => [String c EmptyString]
           end
  end.

(** [sep.join(pieces)] *)
Definition join (sep : string) (pieces : list string) : string :=
  String.concat sep pieces.

Definition newline : string := String (ascii_of_nat 10) EmptyString.

(** ** The data model *)

Record RefDetails : Type := mkRefDetails {
  expires_at : date;
  keep : option bool   (* [NotRequired[bool]]: [None] when the key is absent *)
}.

(** Dictionary mapping action references to their details *)
Definition ActionRefs := PyDict.t RefDetails.

(** Dictionary mapping action names to their reference details *)
Definition ActionsYAML := PyDict.t ActionRefs.

(** Truth value of [details.get("keep")]: an absent key gives [None], which
    is false. *)
Definition truthy (flag : option bool) : bool :=
  match flag with
  | Some true => true
  | _ => false
  end.

(** [details["expires_at"] = d] *)
Definition set_expires_at (details : RefDetails) (d : date) : RefDetails :=
  {| expires_at := d; keep := keep details |}.

(** ** The operations *)

Definition calculate_expiry (today : date) (weeks : Z) : date :=
  Date.add_weeks today weeks.

Definition header : string :=
  "name: Dummy Workflow" ++ newline ++
  newline ++
  "on:" ++ newline ++
  "  workflow_dispatch:" ++ newline ++
  newline ++
  "jobs:" ++ newline ++
  "  dummy:" ++ newline ++
  "    if: false" ++ newline ++
  "    runs-on: ubuntu-latest" ++ newline ++
  "    steps:" ++ newline.

Definition generate_workflow (today : date) (actions : ActionsYAML) : string :=
  let steps :=
    flat_map (fun '(name, refs) =>
      flat_map (fun '(ref, details) =>
        if (expires_at details >? calculate_expiry today 4)
           && negb (truthy (keep details))
        then [("      - uses: " ++ name ++ "@" ++ ref)%string]
        else []) refs) actions in
  header ++ join newline steps.

(** A step of the dummy workflow is a [dict[str, str]]. *)
Definition step := PyDict.t string.

(** [name, new_ref = parts]: exactly two values unpack. *)
Definition unpack2 (parts : list string) : res (string * string) :=
  match parts with
  | [name; new_ref] => Ok (name, new_ref)
  | _ => Err ValueError
  end.

Definition sentinel : date := Date.ymd 2100 1 1.

(** [name, new_ref = step["uses"].split("@")] *)
Definition parse_uses (st : step) : res (string * string) :=
  uses <- PyDict.getitem st "uses" ;;
  unpack2 (split uses "@").

(** The rest of the body of the loop of [update_refs], for the pair that
    the step unpacked to. *)
Definition update_pair (today : date) (name new_ref : string)
    (action_refs : ActionsYAML) : res ActionsYAML :=
  let action_refs :=
    if PyDict.contains action_refs name then action_refs
    else PyDict.setitem action_refs name [] in
  refs <- PyDict.getitem action_refs name ;;
  if PyDict.contains refs new_ref then Ok action_refs
  else
    let refs :=
      map (fun '(ref, details) =>
             (ref, set_expires_at details (calculate_expiry today 12))) refs in
    let refs :=
      PyDict.setitem refs new_ref
        {| expires_at := sentinel; keep := Some false |} in
    Ok (PyDict.setitem action_refs name refs).

Definition update_refs_step (today : date) (st : step)
    (action_refs : ActionsYAML) : res ActionsYAML :=
  '(name, new_ref) <- parse_uses st ;;
  update_pair today name new_ref action_refs.

Fixpoint update_refs (today : date) (dummy_steps : list step)
    (action_refs : ActionsYAML) : res ActionsYAML :=
  match dummy_steps with
  | [] => Ok action_refs
  | st :: rest =>
      action_refs <- update_refs_step today st action_refs ;;
      update_refs today rest action_refs
  end.

Definition create_pattern (today : date) (actions : ActionsYAML) : list string :=
  flat_map (fun '(name, refs) =>
    flat_map (fun '(ref, details) =>
      if (today <? expires_at details) || truthy (keep details)
      then [(name ++ "@" ++ ref)%string]
      else []) refs) actions.

(** The first loop of [remove_expired_refs]. *)
Definition refs_to_remove (today : date) (actions : ActionsYAML)
    : list (string * string) :=
  flat_map (fun '(name, action) =>
    flat_map (fun '(ref, details) =>
      if (expires_at details <=? today) && negb (truthy (keep details))
      then [(name, ref)]
      else []) action) actions.

(** The body of the second loop of [remove_expired_refs]. *)
Definition remove_ref (actions : ActionsYAML) (name ref : string)
    : res ActionsYAML :=
  refs <- PyDict.getitem actions name ;;
  refs <- PyDict.delitem refs ref ;;
  let actions := PyDict.setitem actions name refs in
  refs <- PyDict.getitem actions name ;;
  if PyDict.is_empty refs then PyDict.delitem actions name else Ok actions.

Fixpoint remove_refs (pending : list (string * string)) (actions : ActionsYAML)
    : res ActionsYAML :=
  match pending with
  | [] => Ok actions
  | (name, ref) :: rest =>
      actions <- remove_ref actions name ref ;;
      remove_refs rest actions
  end.

Definition remove_expired_refs (today : date) (actions : ActionsYAML)
    : res ActionsYAML :=
  remove_refs (refs_to_remove today actions) actions.

(** ** The words of the specification *)

(** A store is a dictionary of dictionaries. *)
Definition store_wf (actions : ActionsYAML) : Prop :=
  PyDict.wf actions /\ Forall (fun '(_, refs) => PyDict.wf refs) actions.

(** The (name, reference, details) entries of a store in iteration order:
    names in order, references in order within each name. *)
Definition entries (actions : ActionsYAML)
    : list (string * string * RefDetails) :=
  flat_map (fun '(name, refs) =>
    map (fun '(ref, details) => (name, ref, details)) refs) actions.

(** The details recorded for a (name, reference) pair, if any. *)
Definition lookup (actions : ActionsYAML) (name ref : string)
    : option RefDetails :=
  match PyDict.get actions name with
  | Some refs => PyDict.get refs ref
  | None => None
  end.

(** "expires_at is less than or equal to today and keep is not true" *)
Definition expired (today : date) (details : RefDetails) : bool :=
  (expires_at details <=? today) && negb (truthy (keep details)).

(** "expires_at is strictly greater than today plus 4 weeks and keep is
    not true" *)
Definition in_workflow (today : date) (details : RefDetails) : bool :=
  (today + 4 * 7 <? expires_at details) && negb (truthy (keep details)).

(** "today is strictly less than expires_at or keep is true" *)
Definition in_pattern (today : date) (details : RefDetails) : bool :=
  (today <? expires_at details) || truthy (keep details).

Definition step_line (name ref : string) : string :=
  "      - uses: " ++ name ++ "@" ++ ref.

Definition pattern_of (name ref : string) : string :=
  name ++ "@" ++ ref.

Definition sample_store (today : date) : ActionsYAML :=
  [("actions/checkout",
     [("v3", {| expires_at := today; keep := None |});
      ("v4", {| expires_at := today + 4 * 7; keep := Some false |})]);
   ("actions/cache",
     [("v2", {| expires_at := sentinel; keep := Some true |})])].

(** [s.count(c)] for a character [c]. *)
Fixpoint occurrences (s : string) (c : ascii) : nat :=
  match s with
  | EmptyString => O
  | String c' s' =>
      if Ascii.eqb c' c then S (occurrences s' c) else occurrences s' c
  end.

(** Splitting on the last occurrence of a separator, as the specification
    words it ([s.rsplit(sep, 1)] when the separator occurs). *)
Fixpoint split_on_last (s : string) (sep : ascii) : option (string * string) :=
  match s with
  | EmptyString => None
  | String c s' =>
      match split_on_last s' sep with
      | Some (before, after) => Some (String c before, after)
      | None => if Ascii.eqb c sep then Some (EmptyString, s') else None
      end
  end.

(** The step record [{"uses": uses}]. *)
Definition uses_step (uses : string) : step := [("uses", uses)].

(** What [update_refs] leaves in the group of [name] when it adds [new_ref]:
    every sibling expires twelve weeks from today and the new reference
    comes last, with the sentinel expiry and [keep] false. *)
Definition grace_group (today : date) (refs : ActionRefs) (new_ref : string)
    : ActionRefs :=
  map (fun '(ref, details) =>
         (ref, {| expires_at := today + 12 * 7; keep := keep details |})) refs
  ++ [(new_ref, {| expires_at := Date.ymd 2100 1 1; keep := Some false |})].

(** The pair (name, reference) is recorded in the store. *)
Definition present (actions : ActionsYAML) (name ref : string) : Prop :=
  exists refs, PyDict.get actions name = Some refs
               /\ PyDict.contains refs ref = true.

(** The step unpacks to a pair that is recorded in the store. *)
Definition observed_in (actions : ActionsYAML) (st : step) : Prop :=
  exists name ref, parse_uses st = Ok (name, ref) /\ present actions name ref.

(** The references of a group that are not collected for deletion. *)
Definition survivors (today : date) (refs : ActionRefs) : ActionRefs :=
  filter (fun '(_, details) => negb (expired today details)) refs.

(** The store after pruning, as the specification words it: the collected
    references are deleted from their groups, and a name whose group has
    become empty is deleted. *)
Definition pruned (today : date) (actions : ActionsYAML) : ActionsYAML :=
  flat_map (fun '(name, refs) =>
    if PyDict.is_empty (survivors today refs) && negb (PyDict.is_empty refs)
    then []
    else [(name, survivors today refs)]) actions.

(** [l1] is [l2] with some elements left out, the others in their order. *)
Inductive subseq {A : Type} : list A -> list A -> Prop :=
| subseq_nil : subseq [] []
| subseq_skip (x : A) (l1 l2 : list A) : subseq l1 l2 -> subseq l1 (x :: l2)
| subseq_take (x : A) (l1 l2 : list A) : subseq l1 l2 -> subseq (x :: l1) (x :: l2).

(** The pairs that the first loop collects in one group. *)
Definition collected (today : date) (name : string) (refs : ActionRefs)
    : list (string * string) :=
  flat_map (fun '(ref, details) =>
    if (expires_at details <=? today) && negb (truthy (keep details))
    then [(name, ref)]
    else []) refs.

(** Deciding that keys are pairwise distinct. *)
Fixpoint distinct (ks : list string) : bool :=
  match ks with
  | [] => true
  | k :: ks' => negb (existsb (String.eqb k) ks') && distinct ks'
  end.

Definition store_wfb (actions : ActionsYAML) : bool :=
  distinct (PyDict.keys actions)
  && forallb (fun '(_, refs) => distinct (PyDict.keys refs)) actions.

(** ** Reporting to the job log *)




(** ** Relations between a store and a later state of it *)

(** No group of the store is empty. *)
Definition groups_nonempty (actions : ActionsYAML) : Prop :=
  Forall (fun '(_, refs) => refs <> @nil (string * RefDetails)) actions.

(** [actions'] has the names of [actions] first and in the same order, and
    each group of [actions] has its references first and in the same order
    in [actions']. *)
Definition grows (actions actions' : ActionsYAML) : Prop :=
  (exists added, PyDict.keys actions' = PyDict.keys actions ++ added)
  /\ forall name refs,
       PyDict.get actions name = Some refs ->
       exists refs' added,
         PyDict.get actions' name = Some refs'
         /\ PyDict.keys refs' = PyDict.keys refs ++ added.

(** Every entry of [actions] is in [actions'] with the same [keep] and with
    its expiry either as it was or twelve weeks from [today]. *)
Definition redated (today : date) (actions actions' : ActionsYAML) : Prop :=
  forall name ref d,
    lookup actions name ref = Some d ->
    exists d',
      lookup actions' name ref = Some d'
      /\ keep d' = keep d
      /\ (expires_at d' = expires_at d
          \/ expires_at d' = calculate_expiry today 12).



(** Every entry of the store is collected by the pruner. *)
Definition all_expired (today : date) (actions : ActionsYAML) : Prop :=
  forall name ref d, In (name, ref, d) (entries actions) ->
                     expires_at d <= today /\ keep d <> Some true.

(** * Properties *)

Example sentinel_is_2100 : sentinel = 766645.
Proof. reflexivity. Qed.

(** ** Comprehensions over the two levels of a store *)

Section Comprehension.
Context {B : Type}.
Variable p : RefDetails -> bool.
Variable f : string -> string -> B.

Lemma comprehension_refs (name : string) (refs : ActionRefs) :
  flat_map (fun '(ref, details) =>
              if p details then [f name ref] else []) refs
  = map (fun '(n, r, _) => f n r)
      (filter (fun '(_, _, d) => p d)
         (map (fun '(ref, details) => (name, ref, details)) refs)).
Proof.
  induction refs as [| [ref details] refs IH]; simpl.
  - reflexivity.
  - rewrite IH. destruct (p details); reflexivity.
Qed.

Lemma comprehension_entries (actions : ActionsYAML) :
  flat_map (fun '(name, refs) =>
    flat_map (fun '(ref, details) =>
                if p details then [f name ref] else []) refs) actions
  = map (fun '(n, r, _) => f n r)
      (filter (fun '(_, _, d) => p d) (entries actions)).
Proof.
  induction actions as [| [name refs] actions IH]; simpl.
  - reflexivity.
  - rewrite IH, comprehension_refs, filter_app, map_app. reflexivity.
Qed.
End Comprehension.

Lemma truthy_true (flag : option bool) : truthy flag = true <-> flag = Some true.
Proof. destruct flag as [[|]|]; simpl; split; congruence. Qed.

Lemma in_workflow_iff (today : date) (d : RefDetails) :
  in_workflow today d = true
  <-> expires_at d > calculate_expiry today 4 /\ keep d <> Some true.
Proof.
  unfold in_workflow, calculate_expiry, Date.add_weeks.
  rewrite andb_true_iff, negb_true_iff, Z.ltb_lt, <- not_true_iff_false,
    truthy_true.
  intuition lia.
Qed.

Lemma in_pattern_iff (today : date) (d : RefDetails) :
  in_pattern today d = true <-> today < expires_at d \/ keep d = Some true.
Proof.
  unfold in_pattern. rewrite orb_true_iff, Z.ltb_lt, truthy_true. tauto.
Qed.

Lemma gt_expiry_4 (today : date) (d : RefDetails) :
  (expires_at d >? calculate_expiry today 4) = (today + 4 * 7 <? expires_at d).
Proof.
  unfold calculate_expiry, Date.add_weeks.
  rewrite Z.gtb_ltb. f_equal; lia.
Qed.

Lemma filter_none {A : Type} (p : A -> bool) (l : list A) :
  (forall x, In x l -> p x = false) -> filter p l = [].
Proof.
  induction l as [| x l IH]; simpl; intros H.
  - reflexivity.
  - rewrite (H x (or_introl eq_refl)). apply IH. intros y Hy. apply H. now right.
Qed.

Lemma append_empty_r (s : string) : (s ++ "")%string = s.
Proof. induction s as [| c s IH]; simpl; [reflexivity | now rewrite IH]. Qed.

Lemma generate_workflow_entries (today : date) (actions : ActionsYAML) :
  generate_workflow today actions
  = (header ++ join newline
       (map (fun '(n, r, _) => step_line n r)
          (filter (fun '(_, _, d) => in_workflow today d)
             (entries actions))))%string.
Proof.
  unfold generate_workflow. f_equal. f_equal.
  rewrite <- (comprehension_entries (in_workflow today) step_line).
  apply flat_map_ext. intros [name refs].
  apply flat_map_ext. intros [ref details].
  rewrite gt_expiry_4. reflexivity.
Qed.

(** ** Workflow Synthesizer *)

(** C3. [generate_workflow] is the header followed by the newline-joined
    step lines of exactly the entries whose [expires_at] is strictly after
    today plus four weeks and whose [keep] is not true, in iteration order.
    An entry expiring exactly four weeks from today is left out, one
    expiring a day later is rendered, and a kept entry is left out whatever
    its expiry. *)
Theorem generate_workflow_spec (today : date) (actions : ActionsYAML) :
  generate_workflow today actions
  = (header ++ join newline
       (map (fun '(n, r, _) => step_line n r)
          (filter (fun '(_, _, d) => in_workflow today d)
             (entries actions))))%string
  /\ (forall n r k,
        generate_workflow today
          [(n, [(r, {| expires_at := today + 4 * 7; keep := k |})])] = header)
  /\ (forall n r,
        generate_workflow today
          [(n, [(r, {| expires_at := today + 4 * 7 + 1; keep := None |})])]
        = (header ++ step_line n r)%string
        /\ generate_workflow today
          [(n, [(r, {| expires_at := today + 4 * 7 + 1; keep := Some false |})])]
        = (header ++ step_line n r)%string)
  /\ (forall n r e,
        generate_workflow today
          [(n, [(r, {| expires_at := e; keep := Some true |})])] = header).
Proof.
  split; [apply generate_workflow_entries |].
  unfold generate_workflow, calculate_expiry, Date.add_weeks, join.
  repeat split; intros; simpl;
    try match goal with
        | |- context [?a >? ?b] => destruct (Z.gtb_spec a b); try lia
        end;
    simpl; try rewrite andb_false_r; simpl;
    solve [ reflexivity | apply append_empty_r ].
Qed.

(** C9. When no entry of the store satisfies the inclusion condition of
    the synthesizer, and in particular when the store is empty,
    [generate_workflow] is the header and nothing else. *)
Theorem generate_workflow_header_only (today : date) (actions : ActionsYAML)
    (Hnone : forall n r d, In (n, r, d) (entries actions) ->
               ~ (expires_at d > calculate_expiry today 4
                  /\ keep d <> Some true)) :
  generate_workflow today actions = header
  /\ generate_workflow today [] = header.
Proof.
  split; [| apply append_empty_r].
  rewrite generate_workflow_entries, filter_none.
  - apply append_empty_r.
  - intros [[n r] d] Hin. destruct (in_workflow today d) eqn:E.
    + apply in_workflow_iff in E. destruct (Hnone n r d Hin E).
    + reflexivity.
Qed.

Lemma generate_workflow_header_only_witness :
  generate_workflow 739000 (sample_store 739000) = header
  /\ generate_workflow 739000 [] = header.
Proof.
  apply generate_workflow_header_only.
  intros n r d Hin [Hgt Hkeep]. simpl in Hin.
  destruct Hin as [E | [E | [E | []]]]; inversion E; subst; simpl in *;
    solve [ vm_compute in Hgt; discriminate | congruence ].
Defined.

(** ** Pattern Generator *)

(** C4. [create_pattern] lists [name@reference] for exactly the entries
    with today strictly before [expires_at] or with [keep] true, in
    iteration order.  An entry expiring today is listed only when kept; an
    entry expiring tomorrow is listed. *)
Theorem create_pattern_spec (today : date) (actions : ActionsYAML) :
  create_pattern today actions
  = map (fun '(n, r, _) => pattern_of n r)
      (filter (fun '(_, _, d) => in_pattern today d) (entries actions))
  /\ (forall n r,
        create_pattern today
          [(n, [(r, {| expires_at := today; keep := None |})])] = []
        /\ create_pattern today
          [(n, [(r, {| expires_at := today; keep := Some false |})])] = []
        /\ create_pattern today
          [(n, [(r, {| expires_at := today; keep := Some true |})])]
           = [pattern_of n r])
  /\ (forall n r k,
        create_pattern today
          [(n, [(r, {| expires_at := today + 1; keep := k |})])]
        = [pattern_of n r]).
Proof.
  split.
  - unfold create_pattern.
    apply (comprehension_entries (in_pattern today) pattern_of).
  - unfold create_pattern. repeat split; intros; simpl.
    + now rewrite Z.ltb_irrefl.
    + now rewrite Z.ltb_irrefl.
    + now rewrite Z.ltb_irrefl.
    + replace (today <? today + 1) with true
        by (symmetry; apply Z.ltb_lt; lia).
      reflexivity.
Qed.

Lemma bind_Ok {A B : Type} (m : res A) (a : A) (k : A -> res B) :
  m = Ok a -> bind m k = k a.
Proof. intros ->. reflexivity. Qed.

(** ** Dictionaries *)

Section DictFacts.
Context {V : Type}.
Implicit Types (d : PyDict.t V) (k : string) (v : V).

Lemma contains_get d k :
  PyDict.contains d k = match PyDict.get d k with Some _ => true | None => false end.
Proof.
  induction d as [| [k' v'] d IH]; simpl; [reflexivity |].
  destruct (String.eqb k k'); [reflexivity | exact IH].
Qed.

Lemma contains_In d k : PyDict.contains d k = true <-> In k (PyDict.keys d).
Proof.
  induction d as [| [k' v'] d IH]; simpl.
  - split; [discriminate | tauto].
  - destruct (String.eqb_spec k k') as [-> | Hne].
    + split; auto.
    + rewrite IH. split; [auto | intros [E | H]; [congruence | exact H]].
Qed.

Lemma contains_false_In d k :
  PyDict.contains d k = false <-> ~ In k (PyDict.keys d).
Proof. rewrite <- contains_In. destruct (PyDict.contains d k); intuition congruence. Qed.

Lemma get_setitem_eq d k v : PyDict.get (PyDict.setitem d k v) k = Some v.
Proof.
  induction d as [| [k' v'] d IH]; simpl.
  - now rewrite String.eqb_refl.
  - destruct (String.eqb k k') eqn:E; simpl; rewrite E; [reflexivity | exact IH].
Qed.

Lemma get_setitem_neq d k k' v :
  k' <> k -> PyDict.get (PyDict.setitem d k v) k' = PyDict.get d k'.
Proof.
  intros Hne. induction d as [| [k0 v0] d IH]; simpl.
  - destruct (String.eqb_spec k' k); [contradiction | reflexivity].
  - destruct (String.eqb_spec k k0) as [-> | Hk]; simpl.
    + destruct (String.eqb_spec k' k0); [contradiction | reflexivity].
    + destruct (String.eqb k' k0); [reflexivity | exact IH].
Qed.

Lemma setitem_absent d k v :
  PyDict.contains d k = false -> PyDict.setitem d k v = d ++ [(k, v)].
Proof.
  induction d as [| [k' v'] d IH]; simpl; [reflexivity |].
  destruct (String.eqb k k'); [discriminate |].
  intros H. now rewrite IH.
Qed.

Lemma keys_setitem_present d k v :
  PyDict.contains d k = true -> PyDict.keys (PyDict.setitem d k v) = PyDict.keys d.
Proof.
  induction d as [| [k' v'] d IH]; simpl; [discriminate |].
  destruct (String.eqb k k'); simpl; [reflexivity |].
  intros H. now rewrite IH.
Qed.

Lemma get_app d d' k :
  PyDict.get (d ++ d') k
  = match PyDict.get d k with Some v => Some v | None => PyDict.get d' k end.
Proof.
  induction d as [| [k' v'] d IH]; simpl; [reflexivity |].
  destruct (String.eqb k k'); [reflexivity | exact IH].
Qed.

End DictFacts.

Lemma get_map_values {V W : Type} (f : V -> W) (d : PyDict.t V) (k : string) :
  PyDict.get (map (fun '(k', v) => (k', f v)) d) k = option_map f (PyDict.get d k).
Proof.
  induction d as [| [k' v'] d IH]; simpl; [reflexivity |].
  destruct (String.eqb k k'); [reflexivity | exact IH].
Qed.

Lemma contains_map_values {V W : Type} (f : V -> W) (d : PyDict.t V) (k : string) :
  PyDict.contains (map (fun '(k', v) => (k', f v)) d) k = PyDict.contains d k.
Proof.
  rewrite !contains_get, get_map_values. now destruct (PyDict.get d k).
Qed.

(** ** Splitting on a character *)

Lemma length_split (s : string) (c : ascii) :
  List.length (split s c) = S (occurrences s c).
Proof.
  induction s as [| c' s IH]; simpl; [reflexivity |].
  destruct (Ascii.eqb c' c); simpl.
  - now rewrite IH.
  - destruct (split s c) eqn:E; simpl in *; [discriminate | exact IH].
Qed.

Lemma split_without (s : string) (c : ascii) :
  occurrences s c = O -> split s c = [s].
Proof.
  induction s as [| c' s IH]; simpl; [reflexivity |].
  destruct (Ascii.eqb c' c); [discriminate |].
  intros H. now rewrite IH.
Qed.

Lemma split_append (a b : string) (c : ascii) :
  occurrences a c = O ->
  split (a ++ String c b) c = a :: split b c.
Proof.
  induction a as [| c' a IH]; simpl.
  - now rewrite Ascii.eqb_refl.
  - destruct (Ascii.eqb c' c); [discriminate |].
    intros H. now rewrite IH.
Qed.

Lemma split_pair (name ref : string) :
  occurrences name "@" = O -> occurrences ref "@" = O ->
  split (name ++ "@" ++ ref) "@" = [name; ref].
Proof.
  intros Hn Hr. change ("@" ++ ref)%string with (String "@" ref).
  now rewrite split_append, split_without.
Qed.

(** A string with exactly one separator is a name, the separator and a
    reference, neither of which contains the separator. *)
Lemma split_once (u : string) (c : ascii) :
  occurrences u c = 1%nat ->
  exists a b, u = (a ++ String c b)%string
              /\ occurrences a c = O /\ occurrences b c = O.
Proof.
  induction u as [| c' u IH]; simpl; [discriminate |].
  destruct (Ascii.eqb_spec c' c) as [-> | Hne].
  - intros [= H]. exists EmptyString, u. auto.
  - intros H. destruct (IH H) as (a & b & -> & Ha & Hb).
    exists (String c' a), b. simpl.
    destruct (Ascii.eqb_spec c' c); [contradiction | auto].
Qed.

Lemma unpack2_split (u : string) :
  unpack2 (split u "@")
  = match occurrences u "@" with
    | 1%nat => match split u "@" with
               | [name; ref] => Ok (name, ref)
               | _ => Err ValueError
               end
    | _ => Err ValueError
    end.
Proof.
  pose proof (length_split u "@") as Hlen.
  destruct (occurrences u "@") as [| [| n]];
    destruct (split u "@") as [| p1 [| p2 [| p3 l]]]; simpl in *;
    try discriminate; reflexivity.
Qed.

(** ** Reference Updater *)

Lemma update_refs_app (today : date) (steps1 steps2 : list step)
    (actions : ActionsYAML) :
  update_refs today (steps1 ++ steps2) actions
  = (actions' <- update_refs today steps1 actions ;;
     update_refs today steps2 actions').
Proof.
  revert actions. induction steps1 as [| st steps1 IH]; intros actions; simpl.
  - reflexivity.
  - destruct (update_refs_step today st actions); simpl; [apply IH | reflexivity].
Qed.

Lemma parse_uses_pair (st : step) (name ref : string) :
  PyDict.getitem st "uses" = Ok (name ++ "@" ++ ref)%string ->
  occurrences name "@" = O -> occurrences ref "@" = O ->
  parse_uses st = Ok (name, ref).
Proof.
  intros Hst Hn Hr. unfold parse_uses. rewrite Hst. cbn [bind].
  now rewrite split_pair.
Qed.

Lemma update_pair_new (today : date) (actions : ActionsYAML)
    (name ref : string) (refs : ActionRefs) :
  PyDict.get actions name = Some refs ->
  PyDict.contains refs ref = false ->
  update_pair today name ref actions
  = Ok (PyDict.setitem actions name (grace_group today refs ref)).
Proof.
  intros Hget Hnew. unfold update_pair.
  rewrite contains_get, Hget. unfold PyDict.getitem. rewrite Hget. simpl.
  rewrite Hnew. f_equal. f_equal.
  rewrite setitem_absent.
  - reflexivity.
  - rewrite <- Hnew.
    apply (contains_map_values
             (fun d => set_expires_at d (calculate_expiry today 12))).
Qed.

Lemma update_pair_present (today : date) (actions : ActionsYAML)
    (name ref : string) (refs : ActionRefs) :
  PyDict.get actions name = Some refs ->
  PyDict.contains refs ref = true ->
  update_pair today name ref actions = Ok actions.
Proof.
  intros Hget Hin. unfold update_pair.
  rewrite contains_get, Hget. unfold PyDict.getitem. rewrite Hget. simpl.
  now rewrite Hin.
Qed.

Lemma update_pair_unseen (today : date) (actions : ActionsYAML)
    (name ref : string) :
  PyDict.contains actions name = false ->
  update_pair today name ref actions
  = Ok (PyDict.setitem (PyDict.setitem actions name []) name
          (grace_group today [] ref)).
Proof.
  intros Hnew. unfold update_pair. rewrite Hnew.
  unfold PyDict.getitem. rewrite get_setitem_eq. reflexivity.
Qed.

Lemma contains_grace_group (today : date) (refs : ActionRefs) (new_ref ref : string) :
  PyDict.contains (grace_group today refs new_ref) ref
  = PyDict.contains refs ref || String.eqb ref new_ref.
Proof.
  unfold grace_group. rewrite !contains_get, get_app.
  rewrite (get_map_values
             (fun d => {| expires_at := today + 12 * 7; keep := keep d |})).
  destruct (PyDict.get refs ref); simpl; [reflexivity |].
  now destruct (String.eqb ref new_ref).
Qed.

Lemma update_pair_total (today : date) (actions : ActionsYAML)
    (name ref : string) :
  exists actions', update_pair today name ref actions = Ok actions'.
Proof.
  destruct (PyDict.contains actions name) eqn:Hname.
  - rewrite contains_get in Hname.
    destruct (PyDict.get actions name) as [refs |] eqn:Hget; [| discriminate].
    destruct (PyDict.contains refs ref) eqn:Href.
    + eexists. eapply update_pair_present; eassumption.
    + eexists. eapply update_pair_new; eassumption.
  - eexists. now apply update_pair_unseen.
Qed.

Lemma present_setitem (actions : ActionsYAML) (name : string)
    (refs : ActionRefs) (n r : string) :
  (n = name -> PyDict.contains refs r = true) ->
  (n <> name -> present actions n r) ->
  present (PyDict.setitem actions name refs) n r.
Proof.
  intros Hsame Hother. destruct (string_dec n name) as [-> | Hne].
  - exists refs. rewrite get_setitem_eq. auto.
  - destruct (Hother Hne) as (g & Hg & Hr).
    exists g. rewrite get_setitem_neq by exact Hne. auto.
Qed.

Lemma update_pair_keeps (today : date) (actions actions' : ActionsYAML)
    (name ref n r : string) :
  update_pair today name ref actions = Ok actions' ->
  present actions n r -> present actions' n r.
Proof.
  intros Hup (g & Hg & Hr).
  destruct (PyDict.contains actions name) eqn:Hname.
  - rewrite contains_get in Hname.
    destruct (PyDict.get actions name) as [refs |] eqn:Hget; [| discriminate].
    destruct (PyDict.contains refs ref) eqn:Href.
    + rewrite (update_pair_present _ _ _ _ _ Hget Href) in Hup.
      injection Hup as <-. exists g. auto.
    + rewrite (update_pair_new _ _ _ _ _ Hget Href) in Hup.
      injection Hup as <-. apply present_setitem.
      * intros ->. rewrite contains_grace_group.
        replace refs with g by congruence. now rewrite Hr.
      * intros _. exists g. auto.
  - rewrite (update_pair_unseen _ _ _ _ Hname) in Hup.
    injection Hup as <-. apply present_setitem.
    + intros ->. rewrite contains_get, Hg in Hname. discriminate.
    + intros Hne. exists g. rewrite get_setitem_neq by exact Hne. auto.
Qed.

Lemma update_pair_records (today : date) (actions actions' : ActionsYAML)
    (name ref : string) :
  update_pair today name ref actions = Ok actions' ->
  present actions' name ref.
Proof.
  intros Hup.
  destruct (PyDict.contains actions name) eqn:Hname.
  - rewrite contains_get in Hname.
    destruct (PyDict.get actions name) as [refs |] eqn:Hget; [| discriminate].
    destruct (PyDict.contains refs ref) eqn:Href.
    + rewrite (update_pair_present _ _ _ _ _ Hget Href) in Hup.
      injection Hup as <-. exists refs. auto.
    + rewrite (update_pair_new _ _ _ _ _ Hget Href) in Hup.
      injection Hup as <-. exists (grace_group today refs ref).
      rewrite get_setitem_eq, contains_grace_group, String.eqb_refl.
      split; [reflexivity | apply orb_true_r].
  - rewrite (update_pair_unseen _ _ _ _ Hname) in Hup.
    injection Hup as <-. exists (grace_group today [] ref).
    rewrite get_setitem_eq, contains_grace_group, String.eqb_refl.
    split; reflexivity.
Qed.

Lemma update_refs_step_inv (today : date) (st : step)
    (actions actions' : ActionsYAML) :
  update_refs_step today st actions = Ok actions' ->
  exists name ref, parse_uses st = Ok (name, ref)
                   /\ update_pair today name ref actions = Ok actions'.
Proof.
  unfold update_refs_step.
  destruct (parse_uses st) as [[name ref] |]; simpl; [| discriminate].
  intros H. now exists name, ref.
Qed.

Lemma update_refs_step_observed (today : date) (st : step)
    (actions : ActionsYAML) :
  observed_in actions st -> update_refs_step today st actions = Ok actions.
Proof.
  intros (name & ref & Hparse & refs & Hget & Hin).
  unfold update_refs_step. rewrite Hparse. simpl.
  eapply update_pair_present; eassumption.
Qed.

Lemma update_refs_keeps (today : date) (steps : list step)
    (actions actions' : ActionsYAML) (st : step) :
  update_refs today steps actions = Ok actions' ->
  observed_in actions st -> observed_in actions' st.
Proof.
  revert actions. induction steps as [| st' steps IH]; intros actions; simpl.
  - now intros [= <-].
  - destruct (update_refs_step today st' actions) as [a1 |] eqn:E; simpl;
      [| discriminate].
    intros Hrest (n & r & Hparse & Hpres). apply (IH a1 Hrest).
    apply update_refs_step_inv in E. destruct E as (n' & r' & _ & Hup).
    exists n, r. split; [exact Hparse |].
    eapply update_pair_keeps; eassumption.
Qed.

Lemma update_refs_observed (today : date) (steps : list step)
    (actions actions' : ActionsYAML) :
  update_refs today steps actions = Ok actions' ->
  Forall (observed_in actions') steps.
Proof.
  revert actions. induction steps as [| st steps IH]; intros actions; simpl.
  - constructor.
  - destruct (update_refs_step today st actions) as [a1 |] eqn:E; simpl;
      [| discriminate].
    intros Hrest. constructor; [| now apply (IH a1)].
    apply (update_refs_keeps today steps a1 actions' st Hrest).
    apply update_refs_step_inv in E. destruct E as (n & r & Hparse & Hup).
    exists n, r. split; [exact Hparse |].
    eapply update_pair_records; eassumption.
Qed.

Lemma update_refs_all_observed (today : date) (steps : list step)
    (actions : ActionsYAML) :
  Forall (observed_in actions) steps -> update_refs today steps actions = Ok actions.
Proof.
  induction 1 as [| st steps Hst _ IH]; simpl.
  - reflexivity.
  - rewrite (update_refs_step_observed today st actions Hst). exact IH.
Qed.

Lemma get_grace_group_sibling (today : date) (refs : ActionRefs)
    (new_ref sibling : string) (d : RefDetails) :
  PyDict.get refs sibling = Some d ->
  PyDict.get (grace_group today refs new_ref) sibling
  = Some {| expires_at := calculate_expiry today 12; keep := keep d |}.
Proof.
  intros Hd. unfold grace_group. rewrite get_app.
  rewrite (get_map_values
             (fun d => {| expires_at := today + 12 * 7; keep := keep d |})).
  rewrite Hd. reflexivity.
Qed.

Lemma get_grace_group_new (today : date) (refs : ActionRefs) (new_ref : string) :
  PyDict.contains refs new_ref = false ->
  PyDict.get (grace_group today refs new_ref) new_ref
  = Some {| expires_at := sentinel; keep := Some false |}.
Proof.
  intros Hnew. unfold grace_group. rewrite get_app.
  rewrite (get_map_values
             (fun d => {| expires_at := today + 12 * 7; keep := keep d |})).
  rewrite contains_get in Hnew.
  destruct (PyDict.get refs new_ref); [discriminate |].
  simpl. now rewrite String.eqb_refl.
Qed.

Lemma update_refs_cons_pair (today : date) (st : step) (rest : list step)
    (name ref : string) (actions : ActionsYAML) :
  parse_uses st = Ok (name, ref) ->
  update_refs today (st :: rest) actions
  = (actions' <- update_pair today name ref actions ;;
     update_refs today rest actions').
Proof.
  intros Hparse. simpl. unfold update_refs_step. rewrite Hparse. reflexivity.
Qed.

(** C1. A step [name@reference] whose name is in the store and whose
    reference is not yet in the group of that name rewrites the group in
    place: every reference already there expires twelve weeks from today,
    whatever its expiry was, and the new reference is appended with the
    expiry 2100-01-01 and [keep] false.  The names of the store keep their
    order and the other groups are untouched. *)
Theorem update_refs_grace_window (today : date) (actions : ActionsYAML)
    (st : step) (name ref : string) (refs : ActionRefs)
    (Hst : PyDict.getitem st "uses" = Ok (name ++ "@" ++ ref)%string)
    (Hname : occurrences name "@" = O) (Href : occurrences ref "@" = O)
    (Hrefs : PyDict.get actions name = Some refs)
    (Hnew : PyDict.contains refs ref = false) :
  exists actions',
    update_refs today [st] actions = Ok actions'
    /\ (forall rest,
          update_refs today (st :: rest) actions = update_refs today rest actions')
    /\ PyDict.get actions' name
       = Some (map (fun '(r, d) =>
                      (r, {| expires_at := today + 12 * 7; keep := keep d |}))
                 refs
               ++ [(ref, {| expires_at := Date.ymd 2100 1 1;
                            keep := Some false |})])
    /\ PyDict.keys actions' = PyDict.keys actions
    /\ (forall other, other <> name ->
          PyDict.get actions' other = PyDict.get actions other)
    /\ (forall sibling d, PyDict.get refs sibling = Some d ->
          lookup actions' name sibling
          = Some {| expires_at := calculate_expiry today 12; keep := keep d |})
    /\ lookup actions' name ref
       = Some {| expires_at := Date.ymd 2100 1 1; keep := Some false |}.
Proof.
  pose proof (parse_uses_pair st name ref Hst Hname Href) as Hparse.
  pose proof (update_pair_new today actions name ref refs Hrefs Hnew) as Hup.
  exists (PyDict.setitem actions name (grace_group today refs ref)).
  repeat split.
  - rewrite (update_refs_cons_pair today st [] name ref actions Hparse), Hup.
    reflexivity.
  - intros rest.
    rewrite (update_refs_cons_pair today st rest name ref actions Hparse), Hup.
    reflexivity.
  - apply get_setitem_eq.
  - apply keys_setitem_present. rewrite contains_get, Hrefs. reflexivity.
  - intros other Hne. now apply get_setitem_neq.
  - intros sibling d Hd. unfold lookup. rewrite get_setitem_eq.
    now apply get_grace_group_sibling.
  - unfold lookup. rewrite get_setitem_eq. now apply get_grace_group_new.
Qed.

Lemma update_refs_grace_window_witness :
  exists actions',
    update_refs 739000 [uses_step "actions/checkout@v5"] (sample_store 739000)
    = Ok actions'
    /\ lookup actions' "actions/checkout" "v3"
       = Some {| expires_at := 739084; keep := None |}
    /\ lookup actions' "actions/checkout" "v5"
       = Some {| expires_at := 766645; keep := Some false |}.
Proof.
  destruct (update_refs_grace_window 739000 (sample_store 739000)
              (uses_step "actions/checkout@v5") "actions/checkout" "v5"
              [("v3", {| expires_at := 739000; keep := None |});
               ("v4", {| expires_at := 739000 + 4 * 7; keep := Some false |})]
              eq_refl eq_refl eq_refl eq_refl eq_refl)
    as (actions' & Hrun & _ & _ & _ & _ & Hsib & Hnew).
  exists actions'. split; [exact Hrun |]. split.
  - exact (Hsib "v3" {| expires_at := 739000; keep := None |} eq_refl).
  - exact Hnew.
Defined.

(** C8. The grace-window rewrite does not look at [keep]: a sibling with
    [keep] true gets the twelve-week expiry like the others when a new
    reference joins its group.  [keep] only shields an entry from removal
    by [remove_expired_refs] and keeps it listed by [create_pattern]. *)
Theorem update_refs_bumps_kept_sibling (today : date) (actions : ActionsYAML)
    (st : step) (name ref sibling : string) (refs : ActionRefs)
    (d : RefDetails)
    (Hst : PyDict.getitem st "uses" = Ok (name ++ "@" ++ ref)%string)
    (Hname : occurrences name "@" = O) (Href : occurrences ref "@" = O)
    (Hrefs : PyDict.get actions name = Some refs)
    (Hnew : PyDict.contains refs ref = false)
    (Hsibling : PyDict.get refs sibling = Some d)
    (Hkeep : keep d = Some true) :
  (exists actions',
     update_refs today [st] actions = Ok actions'
     /\ lookup actions' name sibling
        = Some {| expires_at := today + 12 * 7; keep := Some true |})
  /\ remove_expired_refs today [(name, [(sibling, d)])]
     = Ok [(name, [(sibling, d)])]
  /\ create_pattern today [(name, [(sibling, d)])] = [pattern_of name sibling].
Proof.
  split; [| split].
  - exists (PyDict.setitem actions name (grace_group today refs ref)). split.
    + rewrite (update_refs_cons_pair today st [] name ref actions
                 (parse_uses_pair st name ref Hst Hname Href)).
      now rewrite (update_pair_new today actions name ref refs Hrefs Hnew).
    + unfold lookup. rewrite get_setitem_eq.
      rewrite (get_grace_group_sibling today refs ref sibling d Hsibling), Hkeep.
      reflexivity.
  - unfold remove_expired_refs, refs_to_remove. simpl.
    rewrite Hkeep. simpl. rewrite andb_false_r. reflexivity.
  - unfold create_pattern. simpl. rewrite Hkeep. simpl.
    rewrite orb_true_r. reflexivity.
Qed.

Lemma update_refs_bumps_kept_sibling_witness :
  (exists actions',
     update_refs 739000 [uses_step "actions/cache@v3"] (sample_store 739000)
     = Ok actions'
     /\ lookup actions' "actions/cache" "v2"
        = Some {| expires_at := 739084; keep := Some true |})
  /\ remove_expired_refs 739000
       [("actions/cache", [("v2", {| expires_at := sentinel; keep := Some true |})])]
     = Ok [("actions/cache", [("v2", {| expires_at := sentinel; keep := Some true |})])]
  /\ create_pattern 739000
       [("actions/cache", [("v2", {| expires_at := sentinel; keep := Some true |})])]
     = ["actions/cache@v2"].
Proof.
  exact (update_refs_bumps_kept_sibling 739000 (sample_store 739000)
           (uses_step "actions/cache@v3") "actions/cache" "v3" "v2"
           [("v2", {| expires_at := sentinel; keep := Some true |})]
           {| expires_at := sentinel; keep := Some true |}
           eq_refl eq_refl eq_refl eq_refl eq_refl eq_refl eq_refl).
Defined.

(** C5, as the code has it. The [uses] string of a step is split at every
    [@] and must give exactly two pieces.  With exactly one [@] the pieces
    are the name and the reference.  With none, or with more than one, the
    unpacking raises [ValueError]; the error ends [update_refs] at that
    step, after the steps before it, and the later steps are not run. *)
Theorem update_refs_unpacks_uses (today : date) (st : step) (u : string)
    (Hst : PyDict.getitem st "uses" = Ok u) :
  match occurrences u "@" with
  | 1%nat =>
      exists name ref,
        u = (name ++ "@" ++ ref)%string
        /\ occurrences name "@" = O /\ occurrences ref "@" = O
        /\ parse_uses st = Ok (name, ref)
        /\ forall prefix rest actions,
             update_refs today (prefix ++ st :: rest) actions
             = (actions1 <- update_refs today prefix actions ;;
                actions2 <- update_pair today name ref actions1 ;;
                update_refs today rest actions2)
  | _ =>
      parse_uses st = Err ValueError
      /\ forall prefix rest actions,
           update_refs today (prefix ++ st :: rest) actions
           = (_ <- update_refs today prefix actions ;; Err ValueError)
  end.
Proof.
  assert (Hraise : parse_uses st = Err ValueError ->
            forall prefix rest actions,
              update_refs today (prefix ++ st :: rest) actions
              = (_ <- update_refs today prefix actions ;; Err ValueError)).
  { intros Hparse prefix rest actions. rewrite update_refs_app.
    destruct (update_refs today prefix actions); simpl; [| reflexivity].
    unfold update_refs_step. rewrite Hparse. reflexivity. }
  assert (Hparse : parse_uses st = unpack2 (split u "@")).
  { unfold parse_uses. rewrite Hst. reflexivity. }
  rewrite unpack2_split in Hparse.
  destruct (occurrences u "@") as [| [| n]] eqn:Hocc; auto.
  destruct (split_once u "@" Hocc) as (name & ref & -> & Hn & Hr).
  exists name, ref. repeat split; auto.
  - now apply parse_uses_pair.
  - intros prefix rest actions. rewrite update_refs_app.
    destruct (update_refs today prefix actions) as [a1 |]; simpl; [| reflexivity].
    unfold update_refs_step.
    now rewrite (parse_uses_pair st name ref Hst Hn Hr).
Qed.

Lemma update_refs_unpacks_uses_witness :
  parse_uses (uses_step "actions/checkout") = Err ValueError
  /\ forall prefix rest actions,
       update_refs 739000 (prefix ++ uses_step "actions/checkout" :: rest) actions
       = (_ <- update_refs 739000 prefix actions ;; Err ValueError).
Proof.
  exact (update_refs_unpacks_uses 739000 (uses_step "actions/checkout")
           "actions/checkout" eq_refl).
Defined.

(** C5, as the specification words it, fails: a [uses] string with two
    separators is not split on the last one, it raises [ValueError]. *)
Lemma update_refs_two_separators :
  split_on_last "o/r@v1@x" "@" = Some ("o/r@v1", "x")
  /\ update_refs 739000 [uses_step "o/r@v1@x"] [] = Err ValueError
  /\ update_refs 739000 [uses_step "o/r@v1@x"] []
     <> (actions <- update_pair 739000 "o/r@v1" "x" [] ;; Ok actions).
Proof.
  repeat split; try reflexivity. discriminate.
Qed.

(** C6. A step whose pair is already recorded leaves the store as it is.
    Hence a second run of [update_refs] over the same steps changes
    nothing, and a step that repeats an earlier step of the same run can be
    dropped without changing the outcome. *)
Theorem update_refs_noop (today : date) (actions : ActionsYAML)
    (st : step) (name ref : string) (refs : ActionRefs)
    (Hst : PyDict.getitem st "uses" = Ok (name ++ "@" ++ ref)%string)
    (Hname : occurrences name "@" = O) (Href : occurrences ref "@" = O)
    (Hrefs : PyDict.get actions name = Some refs)
    (Hin : PyDict.contains refs ref = true) :
  update_refs today [st] actions = Ok actions
  /\ (forall rest,
        update_refs today (st :: rest) actions = update_refs today rest actions)
  /\ (forall steps store store',
        update_refs today steps store = Ok store' ->
        update_refs today steps store' = Ok store')
  /\ (forall steps1 steps2 steps3 again store,
        update_refs today (steps1 ++ again :: steps2 ++ again :: steps3) store
        = update_refs today (steps1 ++ again :: steps2 ++ steps3) store).
Proof.
  pose proof (parse_uses_pair st name ref Hst Hname Href) as Hparse.
  pose proof (update_pair_present today actions name ref refs Hrefs Hin) as Hup.
  repeat split.
  - now rewrite (update_refs_cons_pair today st [] name ref actions Hparse), Hup.
  - intros rest.
    now rewrite (update_refs_cons_pair today st rest name ref actions Hparse), Hup.
  - intros steps store store' Hrun.
    apply update_refs_all_observed. eapply update_refs_observed. exact Hrun.
  - intros steps1 steps2 steps3 again store.
    change (steps1 ++ again :: steps2 ++ again :: steps3)
      with (steps1 ++ (again :: steps2) ++ again :: steps3).
    change (steps1 ++ again :: steps2 ++ steps3)
      with (steps1 ++ (again :: steps2) ++ steps3).
    rewrite !app_assoc, !(update_refs_app today (steps1 ++ again :: steps2)).
    destruct (update_refs today (steps1 ++ again :: steps2) store) as [s1 |] eqn:E;
      simpl; [| reflexivity].
    apply update_refs_observed in E.
    rewrite Forall_forall in E.
    rewrite (update_refs_step_observed today again s1); [reflexivity |].
    apply E. apply in_or_app. right. left. reflexivity.
Qed.

Lemma update_refs_noop_witness :
  update_refs 739000 [uses_step "actions/checkout@v4"] (sample_store 739000)
  = Ok (sample_store 739000)
  /\ (exists store',
        update_refs 739000
          [uses_step "actions/checkout@v5"; uses_step "owner/repo@abc"] [] = Ok store'
        /\ update_refs 739000
          [uses_step "actions/checkout@v5"; uses_step "owner/repo@abc"] store'
           = Ok store').
Proof.
  destruct (update_refs_noop 739000 (sample_store 739000)
              (uses_step "actions/checkout@v4") "actions/checkout" "v4"
              [("v3", {| expires_at := 739000; keep := None |});
               ("v4", {| expires_at := 739000 + 4 * 7; keep := Some false |})]
              eq_refl eq_refl eq_refl eq_refl eq_refl)
    as (Hone & _ & Htwice & _).
  split; [exact Hone |].
  eexists. split; [reflexivity |].
  apply Htwice with (store := []). reflexivity.
Defined.

(** ** Expiry Pruner *)

Section DictMiddle.
Context {V : Type}.
Implicit Types (d done rest : PyDict.t V) (k : string) (v : V).

Lemma get_absent d k : ~ In k (PyDict.keys d) -> PyDict.get d k = None.
Proof.
  intros H. apply contains_false_In in H. rewrite contains_get in H.
  now destruct (PyDict.get d k).
Qed.

Lemma get_middle done rest k v :
  ~ In k (PyDict.keys done) -> PyDict.get (done ++ (k, v) :: rest) k = Some v.
Proof.
  intros H. rewrite get_app, (get_absent done k H). simpl.
  now rewrite String.eqb_refl.
Qed.

Lemma setitem_middle done rest k v v' :
  ~ In k (PyDict.keys done) ->
  PyDict.setitem (done ++ (k, v) :: rest) k v' = done ++ (k, v') :: rest.
Proof.
  induction done as [| [k0 v0] done IH]; simpl; intros H.
  - now rewrite String.eqb_refl.
  - destruct (String.eqb_spec k k0) as [-> | Hne]; [tauto |].
    rewrite IH by tauto. reflexivity.
Qed.

Lemma delitem_middle done rest k v :
  ~ In k (PyDict.keys done) ->
  PyDict.delitem (done ++ (k, v) :: rest) k = Ok (done ++ rest).
Proof.
  induction done as [| [k0 v0] done IH]; simpl; intros H.
  - now rewrite String.eqb_refl.
  - destruct (String.eqb_spec k k0) as [-> | Hne]; [tauto |].
    rewrite IH by tauto. reflexivity.
Qed.

Lemma keys_app d d' : PyDict.keys (d ++ d') = PyDict.keys d ++ PyDict.keys d'.
Proof. apply map_app. Qed.

Lemma wf_filter (p : string * V -> bool) d : PyDict.wf d -> PyDict.wf (filter p d).
Proof.
  unfold PyDict.wf, PyDict.keys.
  induction d as [| [k v] d IH]; simpl; intros H; [exact H |].
  inversion H as [| ? ? Hk Hd]; subst.
  destruct (p (k, v)); simpl; [| now apply IH].
  constructor; [| now apply IH].
  intros Hin. apply Hk. apply in_map_iff in Hin.
  destruct Hin as ([k' v'] & Hfst & Hin'). apply filter_In in Hin'.
  apply in_map_iff. exists (k', v'). tauto.
Qed.

Lemma get_filter_values (p : V -> bool) d k :
  PyDict.wf d ->
  PyDict.get (filter (fun '(_, v) => p v) d) k
  = match PyDict.get d k with
    | Some v => if p v then Some v else None
    | None => None
    end.
Proof.
  unfold PyDict.wf.
  induction d as [| [k0 v0] d IH]; simpl; intros H; [reflexivity |].
  inversion H as [| ? ? Hk Hd]; subst.
  destruct (String.eqb_spec k k0) as [-> | Hne].
  - destruct (p v0); simpl.
    + now rewrite String.eqb_refl.
    + rewrite (IH Hd), (get_absent d k0 Hk). reflexivity.
  - destruct (p v0); simpl; [| now apply IH].
    destruct (String.eqb_spec k k0); [contradiction | now apply IH].
Qed.

End DictMiddle.

Lemma remove_refs_app (pending1 pending2 : list (string * string))
    (actions : ActionsYAML) :
  remove_refs (pending1 ++ pending2) actions
  = (actions' <- remove_refs pending1 actions ;; remove_refs pending2 actions').
Proof.
  revert actions.
  induction pending1 as [| [name ref] pending1 IH]; intros actions; simpl.
  - reflexivity.
  - destruct (remove_ref actions name ref); simpl; [apply IH | reflexivity].
Qed.

Lemma refs_to_remove_cons (today : date) (name : string) (refs : ActionRefs)
    (actions : ActionsYAML) :
  refs_to_remove today ((name, refs) :: actions)
  = collected today name refs ++ refs_to_remove today actions.
Proof. reflexivity. Qed.

Lemma survivors_all (today : date) (refs : ActionRefs) :
  existsb (fun '(_, d) => expired today d) refs = false ->
  survivors today refs = refs.
Proof.
  induction refs as [| [r d] refs IH]; simpl; [reflexivity |].
  intros H. apply orb_false_iff in H. destruct H as [Hd Hrest].
  rewrite Hd. simpl. now rewrite IH.
Qed.

Lemma survivors_none (today : date) (refs : ActionRefs) :
  survivors today refs = [] -> refs <> [] ->
  existsb (fun '(_, d) => expired today d) refs = true.
Proof.
  destruct refs as [| [r d] refs]; simpl; [congruence |].
  destruct (expired today d); simpl; [reflexivity | discriminate].
Qed.

Lemma is_empty_app_cons {V : Type} (d d' : PyDict.t V) (kv : string * V) :
  PyDict.is_empty (d ++ kv :: d') = false.
Proof. destruct d; reflexivity. Qed.

(** The second loop over the pairs collected in one group: [pre] holds the
    references of the group that the first loop passed over. *)
Lemma remove_refs_group (today : date) (name : string)
    (done rest : ActionsYAML) (refs pre : ActionRefs) :
  ~ In name (PyDict.keys done) ->
  PyDict.wf (pre ++ refs) ->
  remove_refs (collected today name refs) (done ++ (name, pre ++ refs) :: rest)
  = Ok (done
        ++ (if existsb (fun '(_, d) => expired today d) refs
               && PyDict.is_empty (pre ++ survivors today refs)
            then []
            else [(name, pre ++ survivors today refs)])
        ++ rest).
Proof.
  intros Hname. revert pre.
  induction refs as [| [r d] refs IH]; intros pre Hwf.
  - simpl. reflexivity.
  - unfold collected, survivors. simpl. fold (expired today d).
    fold (collected today name refs). fold (survivors today refs).
    destruct (expired today d) eqn:Hd; simpl.
    + assert (Hr : ~ In r (PyDict.keys pre)).
      { unfold PyDict.wf in Hwf. rewrite keys_app in Hwf. simpl in Hwf.
        apply NoDup_remove_2 in Hwf. intros Hin. apply Hwf.
        apply in_or_app. now left. }
      unfold remove_ref, PyDict.getitem.
      rewrite (get_middle done rest name _ Hname). cbn [bind].
      rewrite (delitem_middle pre refs r d Hr). cbn [bind].
      rewrite (setitem_middle done rest name _ _ Hname).
      rewrite (get_middle done rest name _ Hname). cbn [bind].
      destruct (PyDict.is_empty (pre ++ refs)) eqn:Hempty.
      * destruct pre; [| discriminate]. destruct refs; [| discriminate].
        rewrite (delitem_middle done rest name _ Hname). reflexivity.
      * cbn [bind]. rewrite IH.
        2:{ unfold PyDict.wf in *. rewrite keys_app in *. simpl in Hwf.
            now apply NoDup_remove_1 in Hwf. }
        destruct (existsb (fun '(_, d0) => expired today d0) refs) eqn:Hex;
          simpl; [reflexivity |].
        rewrite (survivors_all today refs Hex), Hempty. reflexivity.
    + replace (pre ++ (r, d) :: refs) with ((pre ++ [(r, d)]) ++ refs)
        by (rewrite <- app_assoc; reflexivity).
      rewrite IH.
      2:{ rewrite <- app_assoc. exact Hwf. }
      rewrite <- !app_assoc. simpl.
      rewrite !is_empty_app_cons, !andb_false_r. reflexivity.
Qed.

Lemma emptied_by_deletion (today : date) (refs : ActionRefs) :
  PyDict.is_empty (survivors today refs) && negb (PyDict.is_empty refs)
  = existsb (fun '(_, d) => expired today d) refs
    && PyDict.is_empty (survivors today refs).
Proof.
  destruct refs as [| kv refs']; [reflexivity |].
  destruct (survivors today (kv :: refs')) as [| kv' l] eqn:Hs.
  - rewrite (survivors_none today (kv :: refs') Hs); [reflexivity | discriminate].
  - cbn [PyDict.is_empty andb]. now rewrite andb_false_r.
Qed.

Lemma pruned_cons (today : date) (name : string) (refs : ActionRefs)
    (actions : ActionsYAML) :
  pruned today ((name, refs) :: actions)
  = (if existsb (fun '(_, d) => expired today d) refs
        && PyDict.is_empty (survivors today refs)
     then []
     else [(name, survivors today refs)])
    ++ pruned today actions.
Proof.
  rewrite <- emptied_by_deletion. reflexivity.
Qed.

Lemma remove_refs_store (today : date) (actions done : ActionsYAML) :
  PyDict.wf (done ++ actions) ->
  Forall (fun '(_, refs) => PyDict.wf refs) actions ->
  remove_refs (refs_to_remove today actions) (done ++ actions)
  = Ok (done ++ pruned today actions).
Proof.
  revert done.
  induction actions as [| [name refs] actions IH]; intros done Hwf Hgroups.
  - reflexivity.
  - inversion Hgroups as [| ? ? Hrefs Hrest]; subst.
    assert (Hname : ~ In name (PyDict.keys done)).
    { unfold PyDict.wf in Hwf. rewrite keys_app in Hwf. simpl in Hwf.
      apply NoDup_remove_2 in Hwf. intros Hin. apply Hwf.
      apply in_or_app. now left. }
    rewrite refs_to_remove_cons, remove_refs_app, pruned_cons.
    pose proof (remove_refs_group today name done actions refs [] Hname Hrefs)
      as Hgroup.
    cbn [app] in Hgroup. erewrite bind_Ok by exact Hgroup.
    rewrite app_assoc, IH; [now rewrite <- app_assoc | | exact Hrest].
    unfold PyDict.wf in *. rewrite !keys_app in *. simpl in Hwf.
    destruct (existsb (fun '(_, d) => expired today d) refs
              && PyDict.is_empty (survivors today refs)); simpl.
    + rewrite app_nil_r. now apply NoDup_remove_1 in Hwf.
    + rewrite <- app_assoc. exact Hwf.
Qed.

Lemma remove_expired_refs_pruned (today : date) (actions : ActionsYAML) :
  store_wf actions ->
  remove_expired_refs today actions = Ok (pruned today actions).
Proof.
  intros [Hnames Hgroups]. unfold remove_expired_refs.
  exact (remove_refs_store today actions [] Hnames Hgroups).
Qed.

Lemma distinct_NoDup (ks : list string) : distinct ks = true -> NoDup ks.
Proof.
  induction ks as [| k ks IH]; simpl; intros H; constructor.
  - apply andb_true_iff in H. destruct H as [Hk _].
    apply negb_true_iff in Hk. intros Hin.
    assert (existsb (String.eqb k) ks = true); [| congruence].
    apply existsb_exists. exists k. split; [exact Hin | apply String.eqb_refl].
  - apply IH. apply andb_true_iff in H. tauto.
Qed.

Lemma store_wfb_sound (actions : ActionsYAML) :
  store_wfb actions = true -> store_wf actions.
Proof.
  unfold store_wfb, store_wf, PyDict.wf. intros H.
  apply andb_true_iff in H. destruct H as [Hnames Hgroups]. split.
  - now apply distinct_NoDup.
  - apply Forall_forall. intros [name refs] Hin.
    rewrite forallb_forall in Hgroups.
    apply distinct_NoDup. exact (Hgroups (name, refs) Hin).
Qed.

Lemma expired_iff (today : date) (d : RefDetails) :
  expired today d = true <-> expires_at d <= today /\ keep d <> Some true.
Proof.
  unfold expired.
  rewrite andb_true_iff, negb_true_iff, Z.leb_le, <- not_true_iff_false,
    truthy_true.
  reflexivity.
Qed.

Lemma expired_false_iff (today : date) (d : RefDetails) :
  expired today d = false <-> today < expires_at d \/ keep d = Some true.
Proof.
  unfold expired.
  rewrite andb_false_iff, negb_false_iff, Z.leb_gt, truthy_true.
  reflexivity.
Qed.

Lemma subseq_filter {A : Type} (p : A -> bool) (l : list A) :
  subseq (filter p l) l.
Proof.
  induction l as [| x l IH]; simpl; [constructor |].
  destruct (p x); constructor; exact IH.
Qed.

Lemma subseq_In {A : Type} (l1 l2 : list A) (x : A) :
  subseq l1 l2 -> In x l1 -> In x l2.
Proof.
  induction 1 as [| y l1 l2 _ IH | y l1 l2 _ IH]; simpl; tauto.
Qed.

Lemma subseq_NoDup {A : Type} (l1 l2 : list A) :
  subseq l1 l2 -> NoDup l2 -> NoDup l1.
Proof.
  induction 1 as [| y l1 l2 Hsub IH | y l1 l2 Hsub IH]; intros Hnd.
  - exact Hnd.
  - inversion Hnd; subst. now apply IH.
  - inversion Hnd as [| ? ? Hy Hl2]; subst. constructor; [| now apply IH].
    intros Hin. apply Hy. eapply subseq_In; eassumption.
Qed.

Lemma keys_pruned (today : date) (actions : ActionsYAML) :
  subseq (PyDict.keys (pruned today actions)) (PyDict.keys actions).
Proof.
  induction actions as [| [name refs] actions IH]; [constructor |].
  change (pruned today ((name, refs) :: actions))
    with ((if PyDict.is_empty (survivors today refs)
              && negb (PyDict.is_empty refs)
           then [] else [(name, survivors today refs)])
          ++ pruned today actions).
  destruct (PyDict.is_empty (survivors today refs) && negb (PyDict.is_empty refs));
    simpl; constructor; exact IH.
Qed.

Lemma get_pruned (today : date) (actions : ActionsYAML) (name : string) :
  PyDict.wf actions ->
  PyDict.get (pruned today actions) name
  = match PyDict.get actions name with
    | Some refs =>
        if PyDict.is_empty (survivors today refs) && negb (PyDict.is_empty refs)
        then None
        else Some (survivors today refs)
    | None => None
    end.
Proof.
  unfold PyDict.wf.
  induction actions as [| [name0 refs] actions IH]; intros Hwf; [reflexivity |].
  inversion Hwf as [| ? ? Hname0 Hrest]; subst.
  change (pruned today ((name0, refs) :: actions))
    with ((if PyDict.is_empty (survivors today refs)
              && negb (PyDict.is_empty refs)
           then [] else [(name0, survivors today refs)])
          ++ pruned today actions).
  cbn [PyDict.get].
  destruct (String.eqb_spec name name0) as [-> | Hne].
  - destruct (PyDict.is_empty (survivors today refs) && negb (PyDict.is_empty refs)).
    + cbn [app]. apply get_absent. intros Hin. apply Hname0.
      eapply subseq_In; [apply keys_pruned | exact Hin].
    + cbn [app PyDict.get]. now rewrite String.eqb_refl.
  - destruct (PyDict.is_empty (survivors today refs) && negb (PyDict.is_empty refs)).
    + cbn [app]. now apply IH.
    + cbn [app PyDict.get].
      destruct (String.eqb_spec name name0); [contradiction | now apply IH].
Qed.

Lemma get_wf_group (actions : ActionsYAML) (name : string) (refs : ActionRefs) :
  store_wf actions -> PyDict.get actions name = Some refs -> PyDict.wf refs.
Proof.
  intros [_ Hgroups]. induction actions as [| [name0 refs0] actions IH]; simpl.
  - discriminate.
  - inversion Hgroups; subst.
    destruct (String.eqb name name0); [intros [= <-]; assumption | now apply IH].
Qed.

Lemma lookup_pruned (today : date) (actions : ActionsYAML) (name ref : string) :
  store_wf actions ->
  lookup (pruned today actions) name ref
  = match lookup actions name ref with
    | Some d => if expired today d then None else Some d
    | None => None
    end.
Proof.
  intros Hwf. unfold lookup. rewrite (get_pruned today actions name (proj1 Hwf)).
  destruct (PyDict.get actions name) as [refs |] eqn:Hget; [| reflexivity].
  pose proof (get_filter_values (fun d => negb (expired today d)) refs ref
                (get_wf_group actions name refs Hwf Hget)) as Hfilter.
  assert (Hsurv : PyDict.get (survivors today refs) ref
                  = match PyDict.get refs ref with
                    | Some d => if expired today d then None else Some d
                    | None => None
                    end).
  { etransitivity; [exact Hfilter |].
    destruct (PyDict.get refs ref) as [d |]; [| reflexivity].
    now destruct (expired today d). }
  destruct (PyDict.is_empty (survivors today refs) && negb (PyDict.is_empty refs))
    eqn:Hempty; [| exact Hsurv].
  rewrite <- Hsurv. apply andb_true_iff in Hempty.
  destruct (survivors today refs); [reflexivity | destruct Hempty; discriminate].
Qed.

Lemma store_wf_pruned (today : date) (actions : ActionsYAML) :
  store_wf actions -> store_wf (pruned today actions).
Proof.
  intros [Hnames Hgroups]. split.
  - eapply subseq_NoDup; [apply keys_pruned | exact Hnames].
  - clear Hnames. induction actions as [| [name refs] actions IH]; [constructor |].
    inversion Hgroups; subst.
    change (pruned today ((name, refs) :: actions))
      with ((if PyDict.is_empty (survivors today refs)
                && negb (PyDict.is_empty refs)
             then [] else [(name, survivors today refs)])
            ++ pruned today actions).
    destruct (PyDict.is_empty (survivors today refs) && negb (PyDict.is_empty refs));
      cbn [app]; [now apply IH |].
    constructor; [now apply wf_filter | now apply IH].
Qed.

Lemma survivors_idempotent (today : date) (refs : ActionRefs) :
  survivors today (survivors today refs) = survivors today refs.
Proof.
  unfold survivors. induction refs as [| [r d] refs IH]; simpl; [reflexivity |].
  destruct (expired today d) eqn:E; simpl; [exact IH |].
  rewrite E. simpl. now rewrite IH.
Qed.

Lemma pruned_idempotent (today : date) (actions : ActionsYAML) :
  pruned today (pruned today actions) = pruned today actions.
Proof.
  induction actions as [| [name refs] actions IH]; [reflexivity |].
  change (pruned today ((name, refs) :: actions))
    with ((if PyDict.is_empty (survivors today refs)
              && negb (PyDict.is_empty refs)
           then [] else [(name, survivors today refs)])
          ++ pruned today actions).
  unfold pruned at 1. rewrite flat_map_app. fold (pruned today (pruned today actions)).
  rewrite IH. f_equal.
  destruct (PyDict.is_empty (survivors today refs) && negb (PyDict.is_empty refs));
    [reflexivity |].
  cbn [flat_map]. rewrite survivors_idempotent, app_nil_r.
  now destruct (survivors today refs).
Qed.

Lemma entries_app (actions1 actions2 : ActionsYAML) :
  entries (actions1 ++ actions2) = entries actions1 ++ entries actions2.
Proof. apply flat_map_app. Qed.

Lemma entries_pruned (today : date) (actions : ActionsYAML) :
  entries (pruned today actions)
  = filter (fun '(_, _, d) => negb (expired today d)) (entries actions).
Proof.
  induction actions as [| [name refs] actions IH]; [reflexivity |].
  change (pruned today ((name, refs) :: actions))
    with ((if PyDict.is_empty (survivors today refs)
              && negb (PyDict.is_empty refs)
           then [] else [(name, survivors today refs)])
          ++ pruned today actions).
  rewrite entries_app, IH. cbn [entries flat_map]. rewrite filter_app. f_equal.
  assert (Hmap : map (fun '(ref, details) => (name, ref, details))
                   (survivors today refs)
                 = filter (fun '(_, _, d) => negb (expired today d))
                     (map (fun '(ref, details) => (name, ref, details)) refs)).
  { unfold survivors. clear. induction refs as [| [r d] refs IH]; simpl;
      [reflexivity |].
    destruct (expired today d); simpl; now rewrite IH. }
  rewrite <- Hmap.
  destruct (PyDict.is_empty (survivors today refs) && negb (PyDict.is_empty refs))
    eqn:Hempty.
  - apply andb_true_iff in Hempty.
    destruct (survivors today refs); [reflexivity | destruct Hempty; discriminate].
  - cbn [flat_map]. apply app_nil_r.
Qed.

Lemma remove_expired_refs_single (today : date) (n r : string) (d : RefDetails) :
  remove_expired_refs today [(n, [(r, d)])]
  = Ok (if expired today d then [] else [(n, [(r, d)])]).
Proof.
  rewrite remove_expired_refs_pruned.
  - unfold pruned, survivors. simpl. now destruct (expired today d).
  - split.
    + repeat constructor. simpl. tauto.
    + repeat constructor. simpl. tauto.
Qed.

(** C2. On a store (a dictionary of dictionaries), [remove_expired_refs]
    returns normally.  It deletes exactly the pairs whose [expires_at] is
    today or earlier and whose [keep] is not true, and then every name
    whose group has become empty.  An unkept entry expiring today goes, a
    kept entry expiring today stays, an entry expiring tomorrow stays. *)
Theorem remove_expired_refs_spec (today : date) (actions : ActionsYAML)
    (Hwf : store_wf actions) :
  exists actions',
    remove_expired_refs today actions = Ok actions'
    /\ (forall name ref d,
          lookup actions name ref = Some d ->
          expires_at d <= today -> keep d <> Some true ->
          lookup actions' name ref = None)
    /\ (forall name ref d,
          lookup actions name ref = Some d ->
          today < expires_at d \/ keep d = Some true ->
          lookup actions' name ref = Some d)
    /\ (forall name ref,
          lookup actions name ref = None -> lookup actions' name ref = None)
    /\ (forall name refs,
          PyDict.get actions name = Some refs ->
          PyDict.get actions' name
          = if PyDict.is_empty (survivors today refs)
               && negb (PyDict.is_empty refs)
            then None
            else Some (survivors today refs))
    /\ (forall name,
          PyDict.get actions name = None -> PyDict.get actions' name = None)
    /\ (forall n r,
          remove_expired_refs today
            [(n, [(r, {| expires_at := today; keep := None |})])] = Ok []
          /\ remove_expired_refs today
            [(n, [(r, {| expires_at := today; keep := Some false |})])] = Ok []
          /\ remove_expired_refs today
            [(n, [(r, {| expires_at := today; keep := Some true |})])]
             = Ok [(n, [(r, {| expires_at := today; keep := Some true |})])])
    /\ (forall n r k,
          remove_expired_refs today
            [(n, [(r, {| expires_at := today + 1; keep := k |})])]
          = Ok [(n, [(r, {| expires_at := today + 1; keep := k |})])]).
Proof.
  exists (pruned today actions).
  split; [now apply remove_expired_refs_pruned |].
  split; [| split; [| split; [| split; [| split; [| split]]]]].
  - intros name ref d Hd Hexp Hkeep.
    rewrite lookup_pruned, Hd by exact Hwf.
    now rewrite (proj2 (expired_iff today d) (conj Hexp Hkeep)).
  - intros name ref d Hd Hstay.
    rewrite lookup_pruned, Hd by exact Hwf.
    now rewrite (proj2 (expired_false_iff today d) Hstay).
  - intros name ref Hnone. now rewrite lookup_pruned, Hnone by exact Hwf.
  - intros name refs Hget. now rewrite get_pruned, Hget by exact (proj1 Hwf).
  - intros name Hnone. now rewrite get_pruned, Hnone by exact (proj1 Hwf).
  - intros n r. rewrite !remove_expired_refs_single. unfold expired. simpl.
    rewrite Z.leb_refl. auto.
  - intros n r k. rewrite remove_expired_refs_single.
    replace (expired today {| expires_at := today + 1; keep := k |}) with false;
      [reflexivity |].
    symmetry. apply expired_false_iff. left. simpl. lia.
Qed.

Lemma remove_expired_refs_spec_witness :
  store_wf (sample_store 739000)
  /\ exists actions',
       remove_expired_refs 739000 (sample_store 739000) = Ok actions'
       /\ lookup actions' "actions/checkout" "v3" = None
       /\ lookup actions' "actions/checkout" "v4"
          = Some {| expires_at := 739028; keep := Some false |}.
Proof.
  split; [apply store_wfb_sound; reflexivity |].
  destruct (remove_expired_refs_spec 739000 (sample_store 739000)
              (store_wfb_sound (sample_store 739000) eq_refl))
    as (actions' & Hrun & Hgone & Hstay & _).
  exists actions'. split; [exact Hrun |]. split.
  - apply (Hgone _ _ {| expires_at := 739000; keep := None |}).
    + reflexivity.
    + simpl. lia.
    + discriminate.
  - apply (Hstay _ _ {| expires_at := 739028; keep := Some false |}).
    + reflexivity.
    + left. simpl. lia.
Defined.

(** C7. Pruning a store a second time, on the same day, changes nothing:
    both calls return normally and the second returns the store that the
    first produced. *)
Theorem remove_expired_refs_idempotent (today : date) (actions : ActionsYAML)
    (Hwf : store_wf actions) :
  exists once,
    remove_expired_refs today actions = Ok once
    /\ remove_expired_refs today once = Ok once
    /\ (once' <- remove_expired_refs today actions ;;
        remove_expired_refs today once')
       = remove_expired_refs today actions.
Proof.
  exists (pruned today actions).
  assert (Hagain : remove_expired_refs today (pruned today actions)
                   = Ok (pruned today actions)).
  { rewrite remove_expired_refs_pruned by now apply store_wf_pruned.
    now rewrite pruned_idempotent. }
  rewrite (remove_expired_refs_pruned today actions Hwf). cbn [bind].
  auto.
Qed.

Lemma remove_expired_refs_idempotent_witness :
  store_wf (sample_store 739000)
  /\ exists once,
       remove_expired_refs 739000 (sample_store 739000) = Ok once
       /\ remove_expired_refs 739000 once = Ok once.
Proof.
  split; [apply store_wfb_sound; reflexivity |].
  destruct (remove_expired_refs_idempotent 739000 (sample_store 739000)
              (store_wfb_sound (sample_store 739000) eq_refl))
    as (once & Hfirst & Hsecond & _).
  exists once. split; assumption.
Defined.

(** C10. [remove_expired_refs] touches nothing else.  A pair that is not
    collected keeps its details; the entries of the result are the
    uncollected entries of the store in their order; the names of the
    result are names of the store in their order, and each group of the
    result is its group in the store with references left out. *)
Theorem remove_expired_refs_frame (today : date) (actions : ActionsYAML)
    (Hwf : store_wf actions) :
  exists actions',
    remove_expired_refs today actions = Ok actions'
    /\ (forall name ref d,
          lookup actions name ref = Some d ->
          expired today d = false ->
          lookup actions' name ref = Some d)
    /\ entries actions'
       = filter (fun '(_, _, d) => negb (expired today d)) (entries actions)
    /\ subseq (PyDict.keys actions') (PyDict.keys actions)
    /\ (forall name refs',
          PyDict.get actions' name = Some refs' ->
          exists refs, PyDict.get actions name = Some refs /\ subseq refs' refs).
Proof.
  exists (pruned today actions).
  split; [now apply remove_expired_refs_pruned |].
  split; [| split; [| split]].
  - intros name ref d Hd Hkept.
    now rewrite lookup_pruned, Hd, Hkept by exact Hwf.
  - apply entries_pruned.
  - apply keys_pruned.
  - intros name refs'. rewrite get_pruned by exact (proj1 Hwf).
    destruct (PyDict.get actions name) as [refs |]; [| discriminate].
    destruct (PyDict.is_empty (survivors today refs) && negb (PyDict.is_empty refs));
      [discriminate |].
    intros [= <-]. exists refs. split; [reflexivity | apply subseq_filter].
Qed.

Lemma remove_expired_refs_frame_witness :
  store_wf (sample_store 739000)
  /\ exists actions',
       remove_expired_refs 739000 (sample_store 739000) = Ok actions'
       /\ entries actions'
          = [("actions/checkout", "v4",
               {| expires_at := 739028; keep := Some false |});
             ("actions/cache", "v2",
               {| expires_at := sentinel; keep := Some true |})].
Proof.
  split; [apply store_wfb_sound; reflexivity |].
  destruct (remove_expired_refs_frame 739000 (sample_store 739000)
              (store_wfb_sound (sample_store 739000) eq_refl))
    as (actions' & Hrun & _ & Hentries & _).
  exists actions'. split; [exact Hrun |].
  rewrite Hentries. reflexivity.
Defined.

(** ** The end-to-end cases of the specification *)

Example prune_end_to_end :
  remove_expired_refs (Date.ymd 2024 6 1)
    [("o/r", [("abc", {| expires_at := Date.ymd 2024 1 1; keep := Some false |})])]
  = Ok [].
Proof. reflexivity. Qed.

Example update_end_to_end (today : date) :
  update_refs today [uses_step "o/r@xyz"] []
  = Ok [("o/r", [("xyz", {| expires_at := Date.ymd 2100 1 1; keep := Some false |})])].
Proof. reflexivity. Qed.

Example update_grace_window (today : date) :
  update_refs today [uses_step "o/r@r2"]
    [("o/r", [("r1", {| expires_at := today + 7; keep := None |})])]
  = Ok [("o/r", [("r1", {| expires_at := today + 7 * 12; keep := None |});
                 ("r2", {| expires_at := Date.ymd 2100 1 1; keep := Some false |})])].
Proof. reflexivity. Qed.

(** * Further properties of the operations *)

(** ** Reference Updater: errors *)

(** X1. [update_refs] returns normally exactly when every step unpacks to
    a name and a reference: the content of the store never makes it
    raise, in particular [action_refs[name]] never raises [KeyError]. *)
Theorem update_refs_returns_iff (today : date) (steps : list step)
    (actions : ActionsYAML) :
  (exists actions', update_refs today steps actions = Ok actions')
  <-> Forall (fun st => exists name ref, parse_uses st = Ok (name, ref)) steps.
Proof.
  revert actions. induction steps as [| st steps IH]; intros actions.
  - split; [constructor | intros _; now exists actions].
  - simpl. split.
    + intros [actions' Hrun].
      destruct (update_refs_step today st actions) as [a1 |] eqn:E;
        [| discriminate].
      constructor.
      * apply update_refs_step_inv in E. destruct E as (n & r & Hparse & _).
        now exists n, r.
      * apply (IH a1). now exists actions'.
    + intros Hall. inversion Hall as [| ? ? (n & r & Hparse) Hrest]; subst.
      unfold update_refs_step. rewrite Hparse. cbn [bind].
      destruct (update_pair_total today actions n r) as [a1 ->]. cbn [bind].
      now apply (IH a1).
Qed.



(** ** Reference Updater: a name that the store does not have *)

Lemma update_pair_appends (today : date) (actions : ActionsYAML)
    (name ref : string) :
  PyDict.contains actions name = false ->
  update_pair today name ref actions
  = Ok (actions
        ++ [(name, [(ref, {| expires_at := sentinel; keep := Some false |})])]).
Proof.
  intros Hnew. rewrite (update_pair_unseen today actions name ref Hnew).
  f_equal. rewrite (setitem_absent actions name [] Hnew).
  apply setitem_middle. now apply contains_false_In.
Qed.

(** X3. A step for a name that the store does not have appends the name at
    the end of the store, with a group that holds only the new reference
    (expiry 2100-01-01, [keep] false); nothing else changes. *)
Theorem update_refs_unseen_name (today : date) (actions : ActionsYAML)
    (st : step) (name ref : string)
    (Hparse : parse_uses st = Ok (name, ref))
    (Hunseen : PyDict.contains actions name = false) :
  update_refs today [st] actions
  = Ok (actions
        ++ [(name, [(ref, {| expires_at := Date.ymd 2100 1 1;
                             keep := Some false |})])]).
Proof.
  rewrite (update_refs_cons_pair today st [] name ref actions Hparse).
  rewrite (update_pair_appends today actions name ref Hunseen). reflexivity.
Qed.

Lemma update_refs_unseen_name_witness :
  update_refs 739000 [uses_step "actions/setup-go@v5"] (sample_store 739000)
  = Ok (sample_store 739000
        ++ [("actions/setup-go",
              [("v5", {| expires_at := 766645; keep := Some false |})])]).
Proof.
  exact (update_refs_unseen_name 739000 (sample_store 739000)
           (uses_step "actions/setup-go@v5") "actions/setup-go" "v5"
           eq_refl eq_refl).
Defined.

(** ** Reference Updater: what a run leaves in the store *)

Lemma present_lookup (actions : ActionsYAML) (name ref : string) :
  present actions name ref <-> exists d, lookup actions name ref = Some d.
Proof.
  unfold present, lookup. split.
  - intros (refs & Hget & Hin). rewrite Hget. rewrite contains_get in Hin.
    destruct (PyDict.get refs ref) as [d |]; [now exists d | discriminate].
  - intros [d Hd]. destruct (PyDict.get actions name) as [refs |];
      [| discriminate].
    exists refs. split; [reflexivity |]. now rewrite contains_get, Hd.
Qed.

(** X4. After a run of [update_refs] that returned, every step of the run
    unpacks to a pair that the store records. *)
Theorem update_refs_records_steps (today : date) (steps : list step)
    (actions actions' : ActionsYAML)
    (Hrun : update_refs today steps actions = Ok actions') :
  forall st, In st steps ->
    exists name ref d,
      parse_uses st = Ok (name, ref) /\ lookup actions' name ref = Some d.
Proof.
  intros st Hin.
  pose proof (update_refs_observed today steps actions actions' Hrun) as Hall.
  rewrite Forall_forall in Hall.
  destruct (Hall st Hin) as (name & ref & Hparse & Hpresent).
  apply present_lookup in Hpresent. destruct Hpresent as [d Hd].
  now exists name, ref, d.
Qed.

Lemma update_refs_records_steps_witness :
  exists name ref d,
    parse_uses (uses_step "owner/repo@abc") = Ok (name, ref)
    /\ lookup
         [("actions/checkout",
            [("v5", {| expires_at := 766645; keep := Some false |})]);
          ("owner/repo",
            [("abc", {| expires_at := 766645; keep := Some false |})])]
         name ref = Some d.
Proof.
  apply (update_refs_records_steps 739000
           [uses_step "actions/checkout@v5"; uses_step "owner/repo@abc"] []
           _ eq_refl).
  right. left. reflexivity.
Defined.

Lemma keys_grace_group (today : date) (refs : ActionRefs) (new_ref : string) :
  PyDict.keys (grace_group today refs new_ref) = PyDict.keys refs ++ [new_ref].
Proof.
  unfold grace_group, PyDict.keys. rewrite map_app, map_map. simpl.
  f_equal; apply map_ext; now intros [r d].
Qed.

Lemma grows_refl (actions : ActionsYAML) : grows actions actions.
Proof.
  split.
  - exists []. now rewrite app_nil_r.
  - intros name refs Hget. exists refs, []. now rewrite app_nil_r.
Qed.

Lemma grows_trans (a1 a2 a3 : ActionsYAML) :
  grows a1 a2 -> grows a2 a3 -> grows a1 a3.
Proof.
  intros [[add12 Hk12] Hg12] [[add23 Hk23] Hg23]. split.
  - exists (add12 ++ add23). now rewrite Hk23, Hk12, app_assoc.
  - intros name refs Hget.
    destruct (Hg12 name refs Hget) as (refs2 & added2 & Hget2 & Hkeys2).
    destruct (Hg23 name refs2 Hget2) as (refs3 & added3 & Hget3 & Hkeys3).
    exists refs3, (added2 ++ added3). split; [exact Hget3 |].
    now rewrite Hkeys3, Hkeys2, app_assoc.
Qed.

(** The three ways in which the body of the loop ends. *)
Lemma update_pair_cases (today : date) (actions : ActionsYAML)
    (name ref : string) :
  (PyDict.contains actions name = false
   /\ update_pair today name ref actions
      = Ok (actions
            ++ [(name, [(ref, {| expires_at := sentinel; keep := Some false |})])]))
  \/ (exists refs,
        PyDict.get actions name = Some refs
        /\ PyDict.contains refs ref = true
        /\ update_pair today name ref actions = Ok actions)
  \/ (exists refs,
        PyDict.get actions name = Some refs
        /\ PyDict.contains refs ref = false
        /\ update_pair today name ref actions
           = Ok (PyDict.setitem actions name (grace_group today refs ref))).
Proof.
  destruct (PyDict.contains actions name) eqn:Hname.
  - right. rewrite contains_get in Hname.
    destruct (PyDict.get actions name) as [refs |] eqn:Hget; [| discriminate].
    destruct (PyDict.contains refs ref) eqn:Href.
    + left. exists refs. repeat split; auto.
      eapply update_pair_present; eassumption.
    + right. exists refs. repeat split; auto.
      eapply update_pair_new; eassumption.
  - left. split; [reflexivity |]. now apply update_pair_appends.
Qed.

Lemma update_pair_grows (today : date) (actions actions' : ActionsYAML)
    (name ref : string) :
  update_pair today name ref actions = Ok actions' -> grows actions actions'.
Proof.
  intros Hup.
  destruct (update_pair_cases today actions name ref)
    as [[Hnew E] | [(refs & Hget & Hin & E) | (refs & Hget & Hnew & E)]];
    rewrite E in Hup; injection Hup as <-.
  - split.
    + eexists. apply keys_app.
    + intros n g Hg. exists g, []. rewrite get_app, Hg, app_nil_r. auto.
  - apply grows_refl.
  - split.
    + exists []. rewrite app_nil_r. apply keys_setitem_present.
      now rewrite contains_get, Hget.
    + intros n g Hg. destruct (string_dec n name) as [-> | Hne].
      * exists (grace_group today refs ref), [ref].
        rewrite get_setitem_eq. split; [reflexivity |].
        replace g with refs by congruence. apply keys_grace_group.
      * exists g, []. rewrite get_setitem_neq by exact Hne.
        now rewrite app_nil_r.
Qed.

Lemma redated_refl (today : date) (actions : ActionsYAML) :
  redated today actions actions.
Proof. intros name ref d Hd. exists d. auto. Qed.

Lemma redated_trans (today : date) (a1 a2 a3 : ActionsYAML) :
  redated today a1 a2 -> redated today a2 a3 -> redated today a1 a3.
Proof.
  intros H12 H23 name ref d Hd.
  destruct (H12 name ref d Hd) as (d2 & Hd2 & Hkeep2 & Hexp2).
  destruct (H23 name ref d2 Hd2) as (d3 & Hd3 & Hkeep3 & Hexp3).
  exists d3. split; [exact Hd3 |]. split; [congruence |].
  destruct Hexp3 as [E3 | E3]; [| now right].
  rewrite E3. exact Hexp2.
Qed.

Lemma lookup_setitem (actions : ActionsYAML) (name : string)
    (refs : ActionRefs) (n r : string) :
  lookup (PyDict.setitem actions name refs) n r
  = if string_dec n name then PyDict.get refs r else lookup actions n r.
Proof.
  unfold lookup. destruct (string_dec n name) as [-> | Hne].
  - now rewrite get_setitem_eq.
  - now rewrite get_setitem_neq.
Qed.

Lemma update_pair_redated (today : date) (actions actions' : ActionsYAML)
    (name ref : string) :
  update_pair today name ref actions = Ok actions' ->
  redated today actions actions'.
Proof.
  intros Hup.
  destruct (update_pair_cases today actions name ref)
    as [[Hnew E] | [(refs & Hget & Hin & E) | (refs & Hget & Hnew & E)]];
    rewrite E in Hup; injection Hup as <-.
  - intros n r d Hd. exists d. split; [| auto].
    unfold lookup in *. rewrite get_app.
    destruct (PyDict.get actions n); [exact Hd | discriminate].
  - apply redated_refl.
  - intros n r d Hd. rewrite lookup_setitem.
    destruct (string_dec n name) as [-> | Hne].
    + unfold lookup in Hd. rewrite Hget in Hd.
      rewrite (get_grace_group_sibling today refs ref r d Hd).
      eexists. split; [reflexivity |]. simpl. auto.
    + exists d. auto.
Qed.

(** X5. [update_refs] only appends.  The names of the store before the run
    come first and in the same order after it, and within each group the
    references that were there come first and in the same order: nothing
    is removed, nothing is reordered. *)
Theorem update_refs_grows (today : date) (steps : list step)
    (actions actions' : ActionsYAML)
    (Hrun : update_refs today steps actions = Ok actions') :
  (exists added, PyDict.keys actions' = PyDict.keys actions ++ added)
  /\ forall name refs,
       PyDict.get actions name = Some refs ->
       exists refs' added,
         PyDict.get actions' name = Some refs'
         /\ PyDict.keys refs' = PyDict.keys refs ++ added.
Proof.
  change (grows actions actions').
  revert actions Hrun. induction steps as [| st steps IH]; intros actions; simpl.
  - intros [= <-]. apply grows_refl.
  - destruct (update_refs_step today st actions) as [a1 |] eqn:E; simpl;
      [| discriminate].
    intros Hrest. apply update_refs_step_inv in E.
    destruct E as (n & r & _ & Hup).
    eapply grows_trans; [eapply update_pair_grows; eassumption | now apply IH].
Qed.

Lemma update_refs_grows_witness :
  (exists added,
     PyDict.keys
       [("actions/checkout",
          [("v3", {| expires_at := 739084; keep := None |});
           ("v4", {| expires_at := 739084; keep := Some false |});
           ("v5", {| expires_at := 766645; keep := Some false |})]);
        ("actions/cache",
          [("v2", {| expires_at := sentinel; keep := Some true |})]);
        ("owner/repo",
          [("abc", {| expires_at := 766645; keep := Some false |})])]
     = PyDict.keys (sample_store 739000) ++ added)
  /\ forall name refs,
       PyDict.get (sample_store 739000) name = Some refs ->
       exists refs' added,
         PyDict.get
           [("actions/checkout",
              [("v3", {| expires_at := 739084; keep := None |});
               ("v4", {| expires_at := 739084; keep := Some false |});
               ("v5", {| expires_at := 766645; keep := Some false |})]);
            ("actions/cache",
              [("v2", {| expires_at := sentinel; keep := Some true |})]);
            ("owner/repo",
              [("abc", {| expires_at := 766645; keep := Some false |})])]
           name = Some refs'
         /\ PyDict.keys refs' = PyDict.keys refs ++ added.
Proof.
  exact (update_refs_grows 739000
           [uses_step "actions/checkout@v5"; uses_step "owner/repo@abc"]
           (sample_store 739000) _ eq_refl).
Defined.

(** X6. [update_refs] never touches [keep] and never sets an expiry other
    than twelve weeks from today on an entry that was already there: every
    entry of the store before the run is in the store after it, with the
    same [keep] and with its expiry unchanged or equal to today plus twelve
    weeks. *)
Theorem update_refs_redates_only (today : date) (steps : list step)
    (actions actions' : ActionsYAML)
    (Hrun : update_refs today steps actions = Ok actions') :
  forall name ref d,
    lookup actions name ref = Some d ->
    exists d',
      lookup actions' name ref = Some d'
      /\ keep d' = keep d
      /\ (expires_at d' = expires_at d \/ expires_at d' = today + 12 * 7).
Proof.
  assert (H : redated today actions actions').
  { revert actions Hrun.
    induction steps as [| st steps IH]; intros actions; simpl.
    - intros [= <-]. apply redated_refl.
    - destruct (update_refs_step today st actions) as [a1 |] eqn:E; simpl;
        [| discriminate].
      intros Hrest. apply update_refs_step_inv in E.
      destruct E as (n & r & _ & Hup).
      eapply redated_trans;
        [eapply update_pair_redated; eassumption | now apply IH]. }
  intros name ref d Hd. destruct (H name ref d Hd) as (d' & Hd' & Hk & He).
  exists d'. split; [exact Hd' |]. split; [exact Hk | exact He].
Qed.

Lemma update_refs_redates_only_witness :
  exists d',
    lookup
      [("actions/checkout",
         [("v3", {| expires_at := 739084; keep := None |});
          ("v4", {| expires_at := 739084; keep := Some false |});
          ("v5", {| expires_at := 766645; keep := Some false |})]);
       ("actions/cache",
         [("v2", {| expires_at := sentinel; keep := Some true |})])]
      "actions/cache" "v2" = Some d'
    /\ keep d' = Some true
    /\ (expires_at d' = sentinel \/ expires_at d' = 739000 + 12 * 7).
Proof.
  exact (update_refs_redates_only 739000 [uses_step "actions/checkout@v5"]
           (sample_store 739000) _ eq_refl
           "actions/cache" "v2" {| expires_at := sentinel; keep := Some true |}
           eq_refl).
Defined.

(** ** Groups are never left empty *)

Lemma groups_nonempty_setitem (actions : ActionsYAML) (name : string)
    (refs : ActionRefs) :
  groups_nonempty actions -> refs <> [] ->
  groups_nonempty (PyDict.setitem actions name refs).
Proof.
  unfold groups_nonempty. intros Hall Hrefs.
  induction actions as [| [n g] actions IH]; simpl.
  - repeat constructor. exact Hrefs.
  - inversion Hall; subst.
    destruct (String.eqb name n); constructor; auto.
Qed.

Lemma grace_group_nonempty (today : date) (refs : ActionRefs) (ref : string) :
  grace_group today refs ref <> [].
Proof. unfold grace_group. intros H. now apply app_eq_nil in H. Qed.

(** X7. [update_refs] keeps the groups non-empty: the empty group that it
    creates for a new name receives the new reference in the same turn of
    the loop. *)
Theorem update_refs_groups_nonempty (today : date) (steps : list step)
    (actions actions' : ActionsYAML)
    (Hnonempty : groups_nonempty actions)
    (Hrun : update_refs today steps actions = Ok actions') :
  groups_nonempty actions'.
Proof.
  revert actions Hnonempty Hrun.
  induction steps as [| st steps IH]; intros actions Hnonempty; simpl.
  - now intros [= <-].
  - destruct (update_refs_step today st actions) as [a1 |] eqn:E; simpl;
      [| discriminate].
    apply IH. apply update_refs_step_inv in E.
    destruct E as (name & ref & _ & Hup).
    destruct (update_pair_cases today actions name ref)
      as [[Hnew E] | [(refs & Hget & Hin & E) | (refs & Hget & Hnew & E)]];
      rewrite E in Hup; injection Hup as <-.
    + apply Forall_app. split; [exact Hnonempty |].
      repeat constructor. discriminate.
    + exact Hnonempty.
    + apply groups_nonempty_setitem;
        [exact Hnonempty | apply grace_group_nonempty].
Qed.

Lemma update_refs_groups_nonempty_witness :
  groups_nonempty
    (sample_store 739000
     ++ [("actions/setup-go",
           [("v5", {| expires_at := 766645; keep := Some false |})])]).
Proof.
  apply (update_refs_groups_nonempty 739000 [uses_step "actions/setup-go@v5"]
           (sample_store 739000)).
  - repeat constructor; discriminate.
  - reflexivity.
Defined.

Lemma pruned_groups_nonempty (today : date) (actions : ActionsYAML) :
  groups_nonempty actions -> groups_nonempty (pruned today actions).
Proof.
  unfold groups_nonempty.
  induction actions as [| [name refs] actions IH]; intros Hall; [constructor |].
  inversion Hall as [| ? ? Hrefs Hrest]; subst.
  change (pruned today ((name, refs) :: actions))
    with ((if PyDict.is_empty (survivors today refs)
              && negb (PyDict.is_empty refs)
           then [] else [(name, survivors today refs)])
          ++ pruned today actions).
  destruct refs as [| kv refs]; [congruence |].
  destruct (survivors today (kv :: refs)) eqn:Hs; cbn [PyDict.is_empty andb negb app].
  - now apply IH.
  - constructor; [discriminate | now apply IH].
Qed.

(** X8. [remove_expired_refs] leaves no empty group behind: on a store
    whose groups are all non-empty, the groups of the result are all
    non-empty, a name whose references have all been collected being
    deleted with them. *)
Theorem remove_expired_refs_groups_nonempty (today : date)
    (actions : ActionsYAML)
    (Hwf : store_wf actions) (Hnonempty : groups_nonempty actions) :
  exists actions',
    remove_expired_refs today actions = Ok actions'
    /\ groups_nonempty actions'.
Proof.
  exists (pruned today actions). split.
  - now apply remove_expired_refs_pruned.
  - now apply pruned_groups_nonempty.
Qed.

Lemma remove_expired_refs_groups_nonempty_witness :
  exists actions',
    remove_expired_refs 739000
      [("o/r", [("abc", {| expires_at := 738000; keep := None |})]);
       ("actions/cache", [("v2", {| expires_at := 739001; keep := None |})])]
    = Ok actions'
    /\ groups_nonempty actions'.
Proof.
  apply remove_expired_refs_groups_nonempty.
  - apply store_wfb_sound. reflexivity.
  - repeat constructor; discriminate.
Defined.

(** ** Reference Updater: references that a run adds *)

Lemma lookup_None_contains (actions : ActionsYAML) (name ref : string)
    (refs : ActionRefs) :
  lookup actions name ref = None ->
  PyDict.get actions name = Some refs ->
  PyDict.contains refs ref = false.
Proof.
  unfold lookup. intros Hnone Hget. rewrite Hget in Hnone.
  now rewrite contains_get, Hnone.
Qed.

(** The group in which a new pair ends up. *)
Lemma update_pair_adds (today : date) (actions : ActionsYAML)
    (name ref : string) :
  lookup actions name ref = None ->
  exists actions' before,
    update_pair today name ref actions = Ok actions'
    /\ PyDict.get actions' name = Some (grace_group today before ref)
    /\ PyDict.contains before ref = false
    /\ forall r, PyDict.contains before r = true
                 <-> exists d, lookup actions name r = Some d.
Proof.
  intros Hnone.
  destruct (update_pair_cases today actions name ref)
    as [[Hnew E] | [(refs & Hget & Hin & E) | (refs & Hget & Hnew & E)]].
  - exists (actions
            ++ [(name, [(ref, {| expires_at := sentinel; keep := Some false |})])]),
      [].
    split; [exact E |]. rewrite contains_get in Hnew.
    destruct (PyDict.get actions name) eqn:Hget; [discriminate |].
    split; [| split; [reflexivity |]].
    + rewrite get_app, Hget. simpl. now rewrite String.eqb_refl.
    + intros r. unfold lookup. rewrite Hget. simpl.
      split; [discriminate | intros [d Hd]; discriminate].
  - rewrite (lookup_None_contains actions name ref refs Hnone Hget) in Hin.
    discriminate.
  - exists (PyDict.setitem actions name (grace_group today refs ref)), refs.
    split; [exact E |]. split; [apply get_setitem_eq |]. split; [exact Hnew |].
    intros r. unfold lookup. rewrite Hget, contains_get.
    destruct (PyDict.get refs r) as [d |].
    + split; [intros _; now exists d | reflexivity].
    + split; [discriminate | intros [d Hd]; discriminate].
Qed.

(** X9. When one run observes two new references for the same name, only
    the one observed last keeps the expiry 2100-01-01: the one observed
    first is a sibling by the time the second one is added, and expires
    twelve weeks from today. *)
Theorem update_refs_two_new_references (today : date) (actions : ActionsYAML)
    (st1 st2 : step) (name ref1 ref2 : string)
    (Hst1 : parse_uses st1 = Ok (name, ref1))
    (Hst2 : parse_uses st2 = Ok (name, ref2))
    (Hdistinct : ref1 <> ref2)
    (Hnew1 : lookup actions name ref1 = None)
    (Hnew2 : lookup actions name ref2 = None) :
  exists actions',
    update_refs today [st1; st2] actions = Ok actions'
    /\ lookup actions' name ref1
       = Some {| expires_at := today + 12 * 7; keep := Some false |}
    /\ lookup actions' name ref2
       = Some {| expires_at := Date.ymd 2100 1 1; keep := Some false |}.
Proof.
  destruct (update_pair_adds today actions name ref1 Hnew1)
    as (a1 & before & Hup1 & Hget1 & Hfresh1 & Hbefore).
  assert (Hnot2 : PyDict.contains (grace_group today before ref1) ref2 = false).
  { rewrite contains_grace_group. apply orb_false_iff. split.
    - destruct (PyDict.contains before ref2) eqn:E; [| reflexivity].
      apply Hbefore in E. destruct E as [d Hd]. congruence.
    - apply String.eqb_neq. congruence. }
  exists (PyDict.setitem a1 name
            (grace_group today (grace_group today before ref1) ref2)).
  split; [| split].
  - rewrite (update_refs_cons_pair today st1 [st2] name ref1 actions Hst1), Hup1.
    cbn [bind].
    rewrite (update_refs_cons_pair today st2 [] name ref2 a1 Hst2).
    now rewrite (update_pair_new today a1 name ref2 _ Hget1 Hnot2).
  - unfold lookup. rewrite get_setitem_eq.
    rewrite (get_grace_group_sibling today _ ref2 ref1
               {| expires_at := sentinel; keep := Some false |}
               (get_grace_group_new today before ref1 Hfresh1)).
    reflexivity.
  - unfold lookup. rewrite get_setitem_eq.
    now apply get_grace_group_new.
Qed.

Lemma update_refs_two_new_references_witness :
  exists actions',
    update_refs 739000
      [uses_step "actions/checkout@v5"; uses_step "actions/checkout@v6"]
      (sample_store 739000) = Ok actions'
    /\ lookup actions' "actions/checkout" "v5"
       = Some {| expires_at := 739000 + 12 * 7; keep := Some false |}
    /\ lookup actions' "actions/checkout" "v6"
       = Some {| expires_at := Date.ymd 2100 1 1; keep := Some false |}.
Proof.
  apply (update_refs_two_new_references 739000 (sample_store 739000)
           (uses_step "actions/checkout@v5") (uses_step "actions/checkout@v6")
           "actions/checkout" "v5" "v6"); try reflexivity.
  discriminate.
Defined.

(** ** What the derived artifacts show of a store *)

Lemma get_In {V : Type} (d : PyDict.t V) (k : string) (v : V) :
  PyDict.get d k = Some v -> In (k, v) d.
Proof.
  induction d as [| [k' v'] d IH]; simpl; [discriminate |].
  destruct (String.eqb_spec k k') as [-> | Hne].
  - intros [= ->]. now left.
  - intros H. right. now apply IH.
Qed.


Lemma lookup_In_entries (actions : ActionsYAML) (name ref : string)
    (d : RefDetails) :
  lookup actions name ref = Some d -> In (name, ref, d) (entries actions).
Proof.
  unfold lookup, entries.
  destruct (PyDict.get actions name) as [refs |] eqn:Hget; [| discriminate].
  intros Hd. apply in_flat_map. exists (name, refs).
  split; [now apply get_In |].
  apply in_map_iff. exists (ref, d). split; [reflexivity | now apply get_In].
Qed.

Lemma create_pattern_entries (today : date) (actions : ActionsYAML) :
  create_pattern today actions
  = map (fun '(n, r, _) => pattern_of n r)
      (filter (fun '(_, _, d) => in_pattern today d) (entries actions)).
Proof. apply (comprehension_entries (in_pattern today) pattern_of). Qed.

Lemma listed (today : date) (actions : ActionsYAML) (name ref : string)
    (d : RefDetails) :
  lookup actions name ref = Some d -> in_pattern today d = true ->
  In (pattern_of name ref) (create_pattern today actions).
Proof.
  intros Hd Hin. rewrite create_pattern_entries.
  apply in_map_iff. exists (name, ref, d). split; [reflexivity |].
  apply filter_In. split; [now apply lookup_In_entries | exact Hin].
Qed.

Lemma rendered (today : date) (actions : ActionsYAML) (name ref : string)
    (d : RefDetails) :
  lookup actions name ref = Some d -> in_workflow today d = true ->
  exists before after,
    generate_workflow today actions
    = (header ++ join newline (before ++ step_line name ref :: after))%string.
Proof.
  intros Hd Hin. rewrite generate_workflow_entries.
  assert (Hline : In (step_line name ref)
                    (map (fun '(n, r, _) => step_line n r)
                       (filter (fun '(_, _, d) => in_workflow today d)
                          (entries actions)))).
  { apply in_map_iff. exists (name, ref, d). split; [reflexivity |].
    apply filter_In. split; [now apply lookup_In_entries | exact Hin]. }
  apply in_split in Hline. destruct Hline as (before & after & ->).
  now exists before, after.
Qed.

(** X10. A reference that [update_refs] has just added is listed by
    [create_pattern] and rendered by [generate_workflow] on the same day,
    as long as that day is more than four weeks before 2100-01-01. *)
Theorem update_refs_new_reference_shown (today : date) (actions : ActionsYAML)
    (st : step) (name ref : string)
    (Hparse : parse_uses st = Ok (name, ref))
    (Hnew : lookup actions name ref = None)
    (Hcentury : today + 4 * 7 < Date.ymd 2100 1 1) :
  exists actions',
    update_refs today [st] actions = Ok actions'
    /\ In (pattern_of name ref) (create_pattern today actions')
    /\ exists before after,
         generate_workflow today actions'
         = (header ++ join newline (before ++ step_line name ref :: after))%string.
Proof.
  destruct (update_pair_adds today actions name ref Hnew)
    as (a1 & before & Hup & Hget & Hfresh & _).
  assert (Hd : lookup a1 name ref
               = Some {| expires_at := sentinel; keep := Some false |}).
  { unfold lookup. rewrite Hget. now apply get_grace_group_new. }
  exists a1. split; [| split].
  - now rewrite (update_refs_cons_pair today st [] name ref actions Hparse), Hup.
  - apply (listed today a1 name ref _ Hd).
    apply in_pattern_iff. left. simpl. unfold sentinel. lia.
  - apply (rendered today a1 name ref _ Hd).
    apply in_workflow_iff. unfold calculate_expiry, Date.add_weeks. simpl.
    unfold sentinel. split; [lia | discriminate].
Qed.

Lemma update_refs_new_reference_shown_witness :
  exists actions',
    update_refs 739000 [uses_step "actions/checkout@v5"] (sample_store 739000)
    = Ok actions'
    /\ In "actions/checkout@v5" (create_pattern 739000 actions')
    /\ exists before after,
         generate_workflow 739000 actions'
         = (header ++ join newline
              (before ++ step_line "actions/checkout" "v5" :: after))%string.
Proof.
  apply (update_refs_new_reference_shown 739000 (sample_store 739000)
           (uses_step "actions/checkout@v5") "actions/checkout" "v5");
    reflexivity.
Defined.

(** X11. The grace window, seen from the artifacts.  When a new reference
    joins a group, each sibling, whatever its expiry was and even if it had
    expired, is listed by [create_pattern] on every day before today plus
    twelve weeks, and, unless it is kept, rendered by [generate_workflow]
    on every day before today plus eight weeks. *)
Theorem update_refs_sibling_shown (today : date) (actions : ActionsYAML)
    (st : step) (name ref sibling : string) (refs : ActionRefs)
    (d : RefDetails)
    (Hparse : parse_uses st = Ok (name, ref))
    (Hrefs : PyDict.get actions name = Some refs)
    (Hnew : PyDict.contains refs ref = false)
    (Hsibling : PyDict.get refs sibling = Some d) :
  exists actions',
    update_refs today [st] actions = Ok actions'
    /\ (forall day, day < today + 12 * 7 ->
          In (pattern_of name sibling) (create_pattern day actions'))
    /\ (forall day, day < today + 8 * 7 -> keep d <> Some true ->
          exists before after,
            generate_workflow day actions'
            = (header
               ++ join newline (before ++ step_line name sibling :: after))%string).
Proof.
  exists (PyDict.setitem actions name (grace_group today refs ref)).
  assert (Hd : lookup (PyDict.setitem actions name (grace_group today refs ref))
                 name sibling
               = Some {| expires_at := calculate_expiry today 12; keep := keep d |}).
  { unfold lookup. rewrite get_setitem_eq.
    now apply get_grace_group_sibling. }
  split; [| split].
  - rewrite (update_refs_cons_pair today st [] name ref actions Hparse).
    now rewrite (update_pair_new today actions name ref refs Hrefs Hnew).
  - intros day Hday. apply (listed day _ name sibling _ Hd).
    apply in_pattern_iff. left. unfold calculate_expiry, Date.add_weeks.
    simpl. lia.
  - intros day Hday Hkeep. apply (rendered day _ name sibling _ Hd).
    apply in_workflow_iff. unfold calculate_expiry, Date.add_weeks. simpl.
    split; [lia | exact Hkeep].
Qed.

Lemma update_refs_sibling_shown_witness :
  exists actions',
    update_refs 739000 [uses_step "actions/checkout@v5"] (sample_store 739000)
    = Ok actions'
    /\ (forall day, day < 739000 + 12 * 7 ->
          In (pattern_of "actions/checkout" "v3") (create_pattern day actions'))
    /\ (forall day, day < 739000 + 8 * 7 -> None <> Some true ->
          exists before after,
            generate_workflow day actions'
            = (header
               ++ join newline
                    (before ++ step_line "actions/checkout" "v3" :: after))%string).
Proof.
  exact (update_refs_sibling_shown 739000 (sample_store 739000)
           (uses_step "actions/checkout@v5") "actions/checkout" "v5" "v3"
           [("v3", {| expires_at := 739000; keep := None |});
            ("v4", {| expires_at := 739000 + 4 * 7; keep := Some false |})]
           {| expires_at := 739000; keep := None |}
           eq_refl eq_refl eq_refl eq_refl).
Defined.

(** ** Pruning and the derived artifacts *)

Lemma in_pattern_not_expired (today : date) (d : RefDetails) :
  in_pattern today d = negb (expired today d).
Proof.
  unfold in_pattern, expired.
  rewrite negb_andb, negb_involutive, <- Z.ltb_antisym. reflexivity.
Qed.

Lemma in_workflow_not_expired (today : date) (d : RefDetails) :
  in_workflow today d = true -> negb (expired today d) = true.
Proof.
  intros H. apply in_workflow_iff in H.
  unfold calculate_expiry, Date.add_weeks in H.
  apply negb_true_iff, expired_false_iff.
  destruct H as [H _]. left. lia.
Qed.

Lemma in_workflow_in_pattern (today : date) (d : RefDetails) :
  in_workflow today d = true -> in_pattern today d = true.
Proof.
  intros H. rewrite in_pattern_not_expired. now apply in_workflow_not_expired.
Qed.

Lemma filter_filter_weaker {A : Type} (p q : A -> bool) (l : list A) :
  (forall x, p x = true -> q x = true) ->
  filter p (filter q l) = filter p l.
Proof.
  intros Hpq. induction l as [| x l IH]; simpl; [reflexivity |].
  destruct (q x) eqn:Hq; simpl.
  - now rewrite IH.
  - destruct (p x) eqn:Hp; [| exact IH].
    rewrite (Hpq x Hp) in Hq. discriminate.
Qed.

Lemma filter_all {A : Type} (p : A -> bool) (l : list A) :
  (forall x, In x l -> p x = true) -> filter p l = l.
Proof.
  induction l as [| x l IH]; simpl; intros H; [reflexivity |].
  rewrite (H x (or_introl eq_refl)). f_equal. apply IH. auto.
Qed.

(** X12. Pruning removes exactly what [create_pattern] leaves out: on the
    same day the pattern of the pruned store is the pattern of the store,
    and it lists every entry that the pruned store still has. *)
Theorem create_pattern_after_pruning (today : date) (actions : ActionsYAML)
    (Hwf : store_wf actions) :
  exists actions',
    remove_expired_refs today actions = Ok actions'
    /\ create_pattern today actions' = create_pattern today actions
    /\ create_pattern today actions'
       = map (fun '(n, r, _) => pattern_of n r) (entries actions').
Proof.
  exists (pruned today actions).
  split; [now apply remove_expired_refs_pruned |].
  rewrite !create_pattern_entries, entries_pruned.
  assert (Hsame : forall l : list (string * string * RefDetails),
            filter (fun '(_, _, d) => in_pattern today d) l
            = filter (fun '(_, _, d) => negb (expired today d)) l).
  { intros l. apply filter_ext. intros [[n r] d].
    apply in_pattern_not_expired. }
  rewrite !Hsame. split; f_equal.
  - apply filter_filter_weaker. auto.
  - apply filter_all. intros x Hx. now apply filter_In in Hx.
Qed.

Lemma create_pattern_after_pruning_witness :
  exists actions',
    remove_expired_refs 739000 (sample_store 739000) = Ok actions'
    /\ create_pattern 739000 actions' = create_pattern 739000 (sample_store 739000)
    /\ create_pattern 739000 actions'
       = map (fun '(n, r, _) => pattern_of n r) (entries actions').
Proof.
  exact (create_pattern_after_pruning 739000 (sample_store 739000)
           (store_wfb_sound (sample_store 739000) eq_refl)).
Defined.

(** X13. Pruning never changes the workflow that is generated on the same
    day: every reference that [generate_workflow] renders expires more
    than four weeks from today, so the pruner does not collect it. *)
Theorem generate_workflow_after_pruning (today : date) (actions : ActionsYAML)
    (Hwf : store_wf actions) :
  exists actions',
    remove_expired_refs today actions = Ok actions'
    /\ generate_workflow today actions' = generate_workflow today actions.
Proof.
  exists (pruned today actions).
  split; [now apply remove_expired_refs_pruned |].
  rewrite !generate_workflow_entries, entries_pruned.
  do 3 f_equal. apply filter_filter_weaker.
  intros [[n r] d]. apply in_workflow_not_expired.
Qed.

Lemma generate_workflow_after_pruning_witness :
  exists actions',
    remove_expired_refs 739000 (sample_store 739000) = Ok actions'
    /\ generate_workflow 739000 actions'
       = generate_workflow 739000 (sample_store 739000).
Proof.
  exact (generate_workflow_after_pruning 739000 (sample_store 739000)
           (store_wfb_sound (sample_store 739000) eq_refl)).
Defined.

Lemma subseq_filter_weaker {A : Type} (p q : A -> bool) (l : list A) :
  (forall x, p x = true -> q x = true) ->
  subseq (filter p l) (filter q l).
Proof.
  intros Hpq. induction l as [| x l IH]; simpl; [constructor |].
  destruct (p x) eqn:Hp.
  - rewrite (Hpq x Hp). now constructor.
  - destruct (q x); [now constructor | exact IH].
Qed.

Lemma subseq_map {A B : Type} (f : A -> B) (l1 l2 : list A) :
  subseq l1 l2 -> subseq (map f l1) (map f l2).
Proof. induction 1; simpl; constructor; assumption. Qed.

(** X14. The generated workflow uses only references that the pattern
    allows on the same day: the pairs rendered by [generate_workflow] are,
    in order, among the pairs listed by [create_pattern]. *)
Theorem generate_workflow_within_pattern (today : date) (actions : ActionsYAML) :
  exists pairs : list (string * string),
    generate_workflow today actions
    = (header ++ join newline (map (fun '(n, r) => step_line n r) pairs))%string
    /\ subseq (map (fun '(n, r) => pattern_of n r) pairs)
         (create_pattern today actions).
Proof.
  exists (map (fun '(n, r, _) => (n, r))
            (filter (fun '(_, _, d) => in_workflow today d) (entries actions))).
  split.
  - rewrite generate_workflow_entries, map_map. do 2 f_equal.
    apply map_ext. now intros [[n r] d].
  - rewrite create_pattern_entries, map_map.
    replace (map (fun x : string * string * RefDetails =>
                    let '(n, r) := let '(n, r, _) := x in (n, r) in
                    pattern_of n r)
               (filter (fun '(_, _, d) => in_workflow today d) (entries actions)))
      with (map (fun '(n, r, _) => pattern_of n r)
              (filter (fun '(_, _, d) => in_workflow today d) (entries actions)))
      by (apply map_ext; now intros [[n r] d]).
    apply subseq_map. apply subseq_filter_weaker.
    intros [[n r] d]. apply in_workflow_in_pattern.
Qed.

(** ** Pruning on two days *)

Lemma expired_later (today later : date) (d : RefDetails) :
  today <= later -> expired today d = true -> expired later d = true.
Proof.
  intros Hle H. apply expired_iff in H. apply expired_iff.
  destruct H. split; [lia | assumption].
Qed.

Lemma survivors_later (today later : date) (refs : ActionRefs) :
  today <= later ->
  survivors later (survivors today refs) = survivors later refs.
Proof.
  intros Hle. unfold survivors. apply filter_filter_weaker.
  intros [r d] H. apply negb_true_iff in H. apply negb_true_iff.
  destruct (expired today d) eqn:E; [| reflexivity].
  rewrite (expired_later today later d Hle E) in H. discriminate.
Qed.

Lemma pruned_app (today : date) (actions1 actions2 : ActionsYAML) :
  pruned today (actions1 ++ actions2)
  = pruned today actions1 ++ pruned today actions2.
Proof. apply flat_map_app. Qed.

Lemma pruned_later (today later : date) (actions : ActionsYAML) :
  today <= later ->
  pruned later (pruned today actions) = pruned later actions.
Proof.
  intros Hle. induction actions as [| [name refs] actions IH]; [reflexivity |].
  change (pruned today ((name, refs) :: actions))
    with ((if PyDict.is_empty (survivors today refs)
              && negb (PyDict.is_empty refs)
           then [] else [(name, survivors today refs)])
          ++ pruned today actions).
  change (pruned later ((name, refs) :: actions))
    with ((if PyDict.is_empty (survivors later refs)
              && negb (PyDict.is_empty refs)
           then [] else [(name, survivors later refs)])
          ++ pruned later actions).
  rewrite pruned_app, IH. f_equal.
  pose proof (survivors_later today later refs Hle) as Hlater.
  destruct refs as [| kv refs]; [reflexivity |].
  destruct (survivors today (kv :: refs)) as [| kv' s] eqn:Hs;
    cbn [PyDict.is_empty andb negb].
  - rewrite <- Hlater. reflexivity.
  - cbn [pruned flat_map]. rewrite Hlater, app_nil_r.
    cbn [PyDict.is_empty negb]. reflexivity.
Qed.

(** X15. Pruning on a day and again on a later day gives the store that
    pruning once on the later day gives. *)
Theorem remove_expired_refs_later (today later : date) (actions : ActionsYAML)
    (Hwf : store_wf actions) (Hlater : today <= later) :
  (actions' <- remove_expired_refs today actions ;;
   remove_expired_refs later actions')
  = remove_expired_refs later actions
  /\ exists final, remove_expired_refs later actions = Ok final.
Proof.
  rewrite (remove_expired_refs_pruned today actions Hwf). cbn [bind].
  rewrite (remove_expired_refs_pruned later actions Hwf).
  rewrite remove_expired_refs_pruned by now apply store_wf_pruned.
  rewrite (pruned_later today later actions Hlater).
  split; [reflexivity | now eexists].
Qed.

Lemma remove_expired_refs_later_witness :
  (actions' <- remove_expired_refs 739000 (sample_store 739000) ;;
   remove_expired_refs 739028 actions')
  = remove_expired_refs 739028 (sample_store 739000)
  /\ exists final, remove_expired_refs 739028 (sample_store 739000) = Ok final.
Proof.
  apply remove_expired_refs_later.
  - apply store_wfb_sound. reflexivity.
  - lia.
Defined.

(** ** Pruning: the two extremes *)

Lemma refs_to_remove_entries (today : date) (actions : ActionsYAML) :
  refs_to_remove today actions
  = map (fun '(n, r, _) => (n, r))
      (filter (fun '(_, _, d) => expired today d) (entries actions)).
Proof. apply (comprehension_entries (expired today) (fun n r => (n, r))). Qed.

(** X16. When no entry is due, that is when every entry expires after
    today or is kept, [remove_expired_refs] returns the store as it is,
    whatever its shape: nothing is collected, so nothing is looked up or
    deleted, and a group that was empty from the start stays. *)
Theorem remove_expired_refs_nothing_due (today : date) (actions : ActionsYAML)
    (Hnone : forall name ref d,
               In (name, ref, d) (entries actions) ->
               today < expires_at d \/ keep d = Some true) :
  remove_expired_refs today actions = Ok actions.
Proof.
  unfold remove_expired_refs.
  rewrite refs_to_remove_entries, filter_none; [reflexivity |].
  intros [[n r] d] Hin. apply expired_false_iff. exact (Hnone n r d Hin).
Qed.

Lemma remove_expired_refs_nothing_due_witness :
  remove_expired_refs 738000 (("empty/group", []) :: sample_store 739000)
  = Ok (("empty/group", []) :: sample_store 739000).
Proof.
  apply remove_expired_refs_nothing_due.
  intros name ref d Hin. simpl in Hin.
  destruct Hin as [E | [E | [E | []]]]; inversion E; subst; simpl;
    solve [ left; lia | left; vm_compute; reflexivity ].
Defined.

Lemma pruned_all_expired (today : date) (actions : ActionsYAML) :
  groups_nonempty actions -> all_expired today actions ->
  pruned today actions = [].
Proof.
  unfold groups_nonempty, all_expired.
  induction actions as [| [name refs] actions IH]; intros Hne Hall;
    [reflexivity |].
  inversion Hne as [| ? ? Hrefs Hrest]; subst.
  change (pruned today ((name, refs) :: actions))
    with ((if PyDict.is_empty (survivors today refs)
              && negb (PyDict.is_empty refs)
           then [] else [(name, survivors today refs)])
          ++ pruned today actions).
  rewrite IH; [| exact Hrest |].
  - replace (survivors today refs) with (@nil (string * RefDetails)).
    + destruct refs; [congruence | reflexivity].
    + symmetry. apply filter_none. intros [r d] Hin.
      apply negb_false_iff, expired_iff. apply (Hall name r d).
      cbn [entries flat_map]. apply in_or_app. left.
      apply in_map_iff. now exists (r, d).
  - intros n r d Hin. apply (Hall n r d).
    cbn [entries flat_map]. apply in_or_app. now right.
Qed.

(** X17. When every entry is due and no group is empty,
    [remove_expired_refs] empties the store: each name goes with its last
    reference. *)
Theorem remove_expired_refs_all_due (today : date) (actions : ActionsYAML)
    (Hwf : store_wf actions) (Hnonempty : groups_nonempty actions)
    (Hall : forall name ref d,
              In (name, ref, d) (entries actions) ->
              expires_at d <= today /\ keep d <> Some true) :
  remove_expired_refs today actions = Ok [].
Proof.
  rewrite (remove_expired_refs_pruned today actions Hwf).
  now rewrite (pruned_all_expired today actions Hnonempty Hall).
Qed.

Lemma remove_expired_refs_all_due_witness :
  remove_expired_refs 739000
    [("o/r", [("abc", {| expires_at := 738000; keep := None |});
              ("def", {| expires_at := 739000; keep := Some false |})]);
     ("actions/cache", [("v2", {| expires_at := 1; keep := None |})])]
  = Ok [].
Proof.
  apply remove_expired_refs_all_due.
  - apply store_wfb_sound. reflexivity.
  - repeat constructor; discriminate.
  - intros name ref d Hin. simpl in Hin.
    destruct Hin as [E | [E | [E | []]]]; inversion E; subst; simpl;
      (split; [lia | discriminate]).
Defined.

(** ** From the generated workflow back to the updater *)






(** ** Reporting to the job log *)


(** ** The passing of time *)

(** X20. For a store that does not change, time only takes away: what
    [create_pattern] lists on a later day is, in order, among what it
    lists today, and the pairs that [generate_workflow] renders on a later
    day are, in order, among those it renders today. *)
Theorem artifacts_shrink_with_time (today later : date) (actions : ActionsYAML)
    (Hlater : today <= later) :
  subseq (create_pattern later actions) (create_pattern today actions)
  /\ exists pairs_today pairs_later : list (string * string),
       generate_workflow today actions
       = (header
          ++ join newline (map (fun '(n, r) => step_line n r) pairs_today))%string
       /\ generate_workflow later actions
          = (header
             ++ join newline (map (fun '(n, r) => step_line n r) pairs_later))%string
       /\ subseq pairs_later pairs_today.
Proof.
  split.
  - rewrite !create_pattern_entries. apply subseq_map.
    apply subseq_filter_weaker. intros [[n r] d] H.
    apply in_pattern_iff in H. apply in_pattern_iff.
    destruct H as [H | H]; [left; lia | now right].
  - exists (map (fun '(n, r, _) => (n, r))
              (filter (fun '(_, _, d) => in_workflow today d) (entries actions))),
      (map (fun '(n, r, _) => (n, r))
         (filter (fun '(_, _, d) => in_workflow later d) (entries actions))).
    split; [| split].
    + rewrite generate_workflow_entries, map_map. do 2 f_equal.
      apply map_ext. now intros [[n r] d].
    + rewrite generate_workflow_entries, map_map. do 2 f_equal.
      apply map_ext. now intros [[n r] d].
    + apply subseq_map. apply subseq_filter_weaker. intros [[n r] d] H.
      apply in_workflow_iff in H. apply in_workflow_iff.
      unfold calculate_expiry, Date.add_weeks in *.
      destruct H as [H Hkeep]. split; [lia | exact Hkeep].
Qed.

Lemma artifacts_shrink_with_time_witness :
  subseq (create_pattern 739028 (sample_store 739000))
    (create_pattern 739000 (sample_store 739000))
  /\ exists pairs_today pairs_later : list (string * string),
       generate_workflow 739000 (sample_store 739000)
       = (header
          ++ join newline (map (fun '(n, r) => step_line n r) pairs_today))%string
       /\ generate_workflow 739028 (sample_store 739000)
          = (header
             ++ join newline (map (fun '(n, r) => step_line n r) pairs_later))%string
       /\ subseq pairs_later pairs_today.
Proof.
  apply artifacts_shrink_with_time. lia.
Defined.
